(** * TwinSec: attack injection, simulation step and RK4 solver

    A shallow embedding of the Python code documented in
    [Backend/docs/EXPLICACION_COMPLETA_DESARROLLO.md] and
    [Backend/docs/SIMULATION_ENGINE.md]:
    - [AttackService.register_attack] and [AttackService.inject_attacks],
    - [create_attack] (POST /api/v1/attacks) with its request schema,
    - [Simulator.step], [_update_attack_states] and [_load_attacks_from_db],
    - [rk4_step];
    the removal of an attack and the helper methods of the simulator, which
    have no code in the sources, follow the specification.

    Python floats are modelled as exact rationals ([Q]): every decision the
    code takes on times is a comparison, and the arithmetic of the
    transforms is the field arithmetic the formulas denote.  Rounding,
    NaN and infinities are outside the model. *)

From Stdlib Require Import QArith Qround Lqa ZArith Lia.
From stdpp Require Import gmap strings list fin_maps.

Local Open Scope Q_scope.

(** ** Python values and exceptions *)

(** The values an attack's [params] dictionary holds. *)
Inductive pyval : Type :=
  | VNum (q : Q)
  | VStr (s : string)
  | VList (l : list Q).

(** The exceptions the embedded code can raise.  [TypeError] stands for a
    [params] entry whose value is outside the type the code uses it at. *)
Inductive pyerr : Type :=
  | KeyError (k : string)
  | ZeroDivisionError
  | IndexError
  | ValueError
  | TypeError.

(** [x < y] on floats. *)
Definition Qltb (x y : Q) : bool :=
  match x ?= y with Lt => true | _ => false end.

(** Python's [int(x)]: truncation towards zero. *)
Definition py_int (x : Q) : Z := Z.quot (Qnum x) (Zpos (Qden x)).

(** Truthiness of an [Optional[float]]: [None] and [0.0] are falsy. *)
Definition truthy (d : option Q) : bool :=
  match d with
  | None => false
  | Some q => negb (Qeq_bool q 0)
  end.

(** [params[k]] read as a number. *)
Definition get_num (p : gmap string pyval) (k : string) : pyerr + Q :=
  match p !! k with
  | None => inl (KeyError k)
  | Some (VNum q) => inr q
  | Some _ => inl TypeError
  end.

(** [params[k]] read as a signal name. *)
Definition get_str (p : gmap string pyval) (k : string) : pyerr + string :=
  match p !! k with
  | None => inl (KeyError k)
  | Some (VStr s) => inr s
  | Some _ => inl TypeError
  end.

(** [params[k]] read as a list of numbers. *)
Definition get_list (p : gmap string pyval) (k : string) : pyerr + list Q :=
  match p !! k with
  | None => inl (KeyError k)
  | Some (VList l) => inr l
  | Some _ => inl TypeError
  end.

(** ** Attacks and the registry *)

Inductive AttackType : Type := DOS | FALSE_DATA | REPLAY | RAMP | RANDOM_NOISE.

(** The values of the [status] column; the service itself only ever writes
    [armed], [active] and [completed]. *)
Inductive Status : Type := armed | active | stopped | completed | failed.

Global Instance Status_eq_dec : EqDecision Status.
Proof. solve_decision. Defined.

Global Instance AttackType_eq_dec : EqDecision AttackType.
Proof. solve_decision. Defined.

(** One entry of [AttackService._active_attacks]. *)
Record Attack : Type := mkAttack {
  attack_id : string;
  type : AttackType;
  target_signal : string;
  start_time : Q;
  duration : option Q;
  params : gmap string pyval;
  status : Status
}.

Definition set_status (a : Attack) (s : Status) : Attack :=
  mkAttack (attack_id a) (type a) (target_signal a) (start_time a)
           (duration a) (params a) s.

(** [_active_attacks] is a dict keyed by [attack_id]; Python dicts iterate
    in insertion order, and assigning to an existing key keeps its place.
    The key of every entry is the entry's own [attack_id]. *)
Fixpoint dict_set (reg : list Attack) (a : Attack) : list Attack :=
  match reg with
  | [] => [a]
  | b :: rest =>
      if String.eqb (attack_id b) (attack_id a) then a :: rest
      else b :: dict_set rest a
  end.

Definition register_attack (reg : list Attack) (attack_id : string)
    (attack_type : AttackType) (target_signal : string) (start_time : Q)
    (duration : option Q) (params : gmap string pyval) : list Attack :=
  dict_set reg
    (mkAttack attack_id attack_type target_signal start_time duration params armed).

(** ** inject_attacks *)

(** [duration and t > start + duration] *)
Definition past_window (t : Q) (a : Attack) : bool :=
  match duration a with
  | None => false
  | Some d => truthy (Some d) && Qltb (start_time a + d) t
  end.

(** The attack is neither skipped by [if t < start: continue] nor by the
    "already finished" test: its transform is applied at [t]. *)
Definition in_window (t : Q) (a : Attack) : bool :=
  negb (Qltb t (start_time a)) && negb (past_window t a).

(** The status writes of one iteration of the loop of [inject_attacks], on
    their own (lemma [inject_loop_cons] relates them to the loop). *)
Definition advance (t : Q) (a : Attack) : Attack :=
  if Qltb t (start_time a) then a
  else if past_window t a then
    (if bool_decide (status a = active) then set_status a completed else a)
  else
    (if bool_decide (status a = armed) && Qle_bool (start_time a) t
     then set_status a active else a).

Section Injection.

(** [np.random.normal(0, std)]: the [k]-th draw of the process. *)
Variable normal : nat -> Q -> Q.

(** The [if/elif] chain on [attack["type"]].  [signals] is the argument of
    [inject_attacks], [attacked] the copy being written, [rng] the number
    of draws made so far. *)
Definition transform (a : Attack) (t : Q) (signals attacked : gmap string Q)
    (rng : nat) : pyerr + (gmap string Q * nat) :=
  let start := start_time a in
  match type a with
  | DOS =>
      match get_str (params a) "target_signal" with
      | inl e => inl e
      | inr target =>
          match params a !! "blocked_value" with
          | None => inr (<[target := 0]> attacked, rng)
          | Some (VNum blocked_value) =>
              inr (<[target := blocked_value]> attacked, rng)
          | Some _ => inl TypeError
          end
      end
  | FALSE_DATA =>
      match get_str (params a) "target_signal" with
      | inl e => inl e
      | inr target =>
          match get_num (params a) "false_value" with
          | inl e => inl e
          | inr false_value => inr (<[target := false_value]> attacked, rng)
          end
      end
  | REPLAY =>
      match get_str (params a) "target_signal" with
      | inl e => inl e
      | inr target =>
          match get_list (params a) "replay_buffer" with
          | inl e => inl e
          | inr buffer =>
              let elapsed := t - start in
              match buffer with
              | [] => inl ZeroDivisionError
              | _ :: _ =>
                  let idx := (py_int elapsed mod Z.of_nat (length buffer))%Z in
                  match buffer !! Z.to_nat idx with
                  | Some v => inr (<[target := v]> attacked, rng)
                  | None => inl IndexError
                  end
              end
          end
      end
  | RAMP =>
      match get_str (params a) "target_signal" with
      | inl e => inl e
      | inr target =>
          match get_num (params a) "rate" with
          | inl e => inl e
          | inr rate =>
              let elapsed := t - start in
              let offset := rate * elapsed in
              match signals !! target with
              | None => inl (KeyError target)
              | Some v => inr (<[target := v + offset]> attacked, rng)
              end
          end
      end
  | RANDOM_NOISE =>
      match get_str (params a) "target_signal" with
      | inl e => inl e
      | inr target =>
          match get_num (params a) "noise_std" with
          | inl e => inl e
          | inr noise_std =>
              if Qltb noise_std 0 then inl ValueError
              else
                let noise := normal rng noise_std in
                match signals !! target with
                | None => inl (KeyError target)
                | Some v => inr (<[target := v + noise]> attacked, S rng)
                end
          end
      end
  end.

(** The [for attack_id, attack in self._active_attacks.items()] loop.
    The first component is the registry after the loop (statuses are
    mutated in place, also when a later iteration raises); the second is
    the exception raised or the final [attacked_signals]. *)
Fixpoint inject_loop (t : Q) (signals : gmap string Q) (reg : list Attack)
    (attacked : gmap string Q) (rng : nat)
    : list Attack * (pyerr + (gmap string Q * nat)) :=
  match reg with
  | [] => ([], inr (attacked, rng))
  | a :: rest =>
      if Qltb t (start_time a) then
        (* continue: not started yet *)
        let '(rest', r) := inject_loop t signals rest attacked rng in
        (a :: rest', r)
      else if past_window t a then
        (* continue: already finished *)
        let a' :=
          if bool_decide (status a = active) then set_status a completed else a in
        let '(rest', r) := inject_loop t signals rest attacked rng in
        (a' :: rest', r)
      else
        let a' :=
          if bool_decide (status a = armed) && Qle_bool (start_time a) t
          then set_status a active else a in
        match transform a' t signals attacked rng with
        | inl e => (a' :: rest, inl e)
        | inr (attacked', rng') =>
            let '(rest', r) := inject_loop t signals rest attacked' rng' in
            (a' :: rest', r)
        end
  end.

(** [inject_attacks(t, run_id, signals)]; [run_id] is not read by the
    body. *)
Definition inject_attacks (reg : list Attack) (rng : nat) (t : Q)
    (run_id : Z) (signals : gmap string Q)
    : list Attack * (pyerr + (gmap string Q * nat)) :=
  inject_loop t signals reg signals rng.

End Injection.

(** The signal an attack writes: [attack["params"]["target_signal"]], the
    entry every branch of the [if/elif] chain reads its target from. *)
Definition writes_to (a : Attack) (s : string) : Prop :=
  get_str (params a) "target_signal" = inr s.

(** A call of [inject_attacks] with the state of the random generator it
    meets. *)
Record call : Type := mkCall {
  call_rng : nat;
  call_t : Q;
  call_run_id : Z;
  call_signals : gmap string Q
}.

(** The registry after a sequence of calls, in any order of times.  The
    status writes of a call that raises are kept, as in Python. *)
Fixpoint inject_calls (normal : nat -> Q -> Q) (reg : list Attack)
    (calls : list call) : list Attack :=
  match calls with
  | [] => reg
  | c :: cs =>
      inject_calls normal
        (inject_attacks normal reg (call_rng c) (call_t c) (call_run_id c)
           (call_signals c)).1 cs
  end.

(** The order of the life-cycle: [armed], then [active], then [completed]. *)
Definition lifecycle_le (s s' : Status) : Prop :=
  s' = s \/ (s = armed /\ (s' = active \/ s' = completed))
  \/ (s = active /\ s' = completed).

(** A single status write of the life-cycle. *)
Definition lifecycle_step (s s' : Status) : Prop :=
  s' = s \/ (s = armed /\ s' = active) \/ (s = active /\ s' = completed).

(** What a single call and a sequence of calls may do to one entry: the
    status moves along the life-cycle, every other field stays. *)
Definition entry_step (a a' : Attack) : Prop :=
  set_status a' (status a) = a /\ lifecycle_step (status a) (status a').

Definition entry_le (a a' : Attack) : Prop :=
  set_status a' (status a) = a /\ lifecycle_le (status a) (status a').

(** ** The attacks API *)

(** [AttackCreateRequest] (pydantic). *)
Record AttackCreateRequest : Type := mkRequest {
  req_run_id : Z;
  req_attack_type : AttackType;
  req_target_signal : string;
  req_start_time : Q;
  req_duration : option Q;
  req_parameters : gmap string pyval
}.

(** The [Field] constraints: [run_id > 0], [1 <= len(target_signal) <= 100],
    [start_time >= 0], and [duration] absent or [>= 0]. *)
Definition schema_ok (r : AttackCreateRequest) : bool :=
  (0 <? req_run_id r)%Z
  && (1 <=? String.length (req_target_signal r))%nat
  && (String.length (req_target_signal r) <=? 100)%nat
  && Qle_bool 0 (req_start_time r)
  && match req_duration r with
     | None => true
     | Some d => Qle_bool 0 d
     end.

(** A [SimulationRun] row with the owner of its model ([run.model.owner_id]). *)
Record SimulationRun : Type := mkRun {
  run_pk : Z;
  run_owner_id : Z
}.

(** A row of the [attacks] table. *)
Record AttackRow : Type := mkRow {
  row_id : Z;
  row_attack_id : string;
  row_simulation_run_id : Z;
  row_attack_type : AttackType;
  row_target_component : string;
  row_trigger_time : Q;
  row_duration : option Q;
  row_parameters : gmap string pyval;
  row_status : Status
}.

(** The database and the singleton attack service. *)
Record Backend : Type := mkBackend {
  runs : list SimulationRun;
  attacks : list AttackRow;
  service : list Attack
}.

Inductive api_error : Type :=
  | RequestValidationError            (* 422, raised by the schema *)
  | HTTPException (status_code : Z) (detail : string)
  | AttributeError.                   (* [run] is [None] *)

Section CreateAttack.

(** [attack_service.validate_attack_params(attack_type, attack_params)]:
    called by [create_attack]; returns [(valid, error)]. *)
Variable validate_attack_params :
  AttackType -> gmap string pyval -> bool * string.

(** [create_attack(request, db, user)].  [new_id] and [uuid] are the
    primary key and the [attack_id] the database assigns to the new row. *)
Definition create_attack (new_id : Z) (uuid : string)
    (request : AttackCreateRequest) (user_id : Z) (st : Backend)
    : Backend * (api_error + AttackRow) :=
  if negb (schema_ok request) then (st, inl RequestValidationError)
  else
    match List.find (fun r => (run_pk r =? req_run_id request)%Z) (runs st) with
    | None => (st, inl AttributeError)
    | Some run =>
        if negb (run_owner_id run =? user_id)%Z then
          (st, inl (HTTPException 403 "No tienes permisos"))
        else
          (* {"target_signal": request.target_signal, **request.parameters} *)
          let attack_params : gmap string pyval :=
            req_parameters request
            ∪ {[ "target_signal" := VStr (req_target_signal request) ]} in
          let '(valid, error) :=
            validate_attack_params (req_attack_type request) attack_params in
          if negb valid then (st, inl (HTTPException 400 error))
          else
            let attack :=
              mkRow new_id uuid (req_run_id request) (req_attack_type request)
                (req_target_signal request) (req_start_time request)
                (req_duration request) (req_parameters request) armed in
            (mkBackend (runs st) (attacks st ++ [attack])
               (register_attack (service st) uuid (req_attack_type request)
                  (req_target_signal request) (req_start_time request)
                  (req_duration request) attack_params),
             inr attack)
    end.

End CreateAttack.

(** Modelled from the spec: the body of [validate_attack_params] is missing
    from the sources (only the call in [create_attack] is documented).
    Spec 4.4: "kind-specific required parameters present and of correct
    numeric sign/type", with the table of parameters: [blocked_value]
    (default 0), [false_value] (required), [replay_buffer] (required,
    non-empty), [rate] (required), [noise_std] (required, >= 0). *)
Definition spec_validate_attack_params (ty : AttackType)
    (p : gmap string pyval) : bool * string :=
  match ty with
  | DOS =>
      match p !! "blocked_value" with
      | None | Some (VNum _) => (true, "")
      | Some _ => (false, "blocked_value must be a number")
      end
  | FALSE_DATA =>
      match p !! "false_value" with
      | Some (VNum _) => (true, "")
      | _ => (false, "false_value is required")
      end
  | REPLAY =>
      match p !! "replay_buffer" with
      | Some (VList (_ :: _)) => (true, "")
      | _ => (false, "replay_buffer is required and must not be empty")
      end
  | RAMP =>
      match p !! "rate" with
      | Some (VNum _) => (true, "")
      | _ => (false, "rate is required")
      end
  | RANDOM_NOISE =>
      match p !! "noise_std" with
      | Some (VNum s) =>
          if Qle_bool 0 s then (true, "")
          else (false, "noise_std must not be negative")
      | _ => (false, "noise_std is required")
      end
  end.

(** Modelled from the spec: the parameter each kind requires, from the table
    of spec 4.4 ([blocked_value] of [dos] has a default). *)
Definition required_key (ty : AttackType) : option string :=
  match ty with
  | DOS => None
  | FALSE_DATA => Some "false_value"
  | REPLAY => Some "replay_buffer"
  | RAMP => Some "rate"
  | RANDOM_NOISE => Some "noise_std"
  end.

(** ** Removal *)

(** The error of the registration interface (spec 7). *)
Inductive registry_error : Type := ValidationError.

(** Modelled from the spec: the removal of an attack has no code in the
    sources (DELETE /api/v1/attacks/{id} is only listed in the API
    reference).  Spec 4.4: "Removal is rejected with an error unless the
    spec's current status is armed"; spec 3: "destroyed on explicit removal
    (only permitted while armed)"; spec 7: "ValidationError (bad attack
    parameters, duplicate attack_id, removal of a non-armed attack) - local
    to the registration call, run unaffected".  The status is the one the
    registry holds; an identifier that is not registered has no armed status
    and is rejected as well. *)
Definition remove_attack (reg : list Attack) (id : string)
    : list Attack * (registry_error + unit) :=
  match List.find (fun a => String.eqb (attack_id a) id) reg with
  | Some a =>
      if bool_decide (status a = armed) then
        (List.filter (fun b => negb (String.eqb (attack_id b) id)) reg, inr tt)
      else (reg, inl ValidationError)
  | None => (reg, inl ValidationError)
  end.

(** ** The attack table during a run *)

(** A row with its status column replaced. *)
Definition with_status (row : AttackRow) (s : Status) : AttackRow :=
  mkRow (row_id row) (row_attack_id row) (row_simulation_run_id row)
    (row_attack_type row) (row_target_component row)
    (row_trigger_time row) (row_duration row) (row_parameters row) s.

(** A row of the [attacks] table with the columns [_update_attack_states]
    writes beside the status. *)
Record DbAttack : Type := mkDbAttack {
  db_row : AttackRow;
  started_at : option Z;
  ended_at : option Z;
  success : option bool
}.


Section AttackTable.

(** [datetime.utcnow()]: the [k]-th reading of the clock. *)
Variable utcnow : nat -> Z.

(** The body of [if db_attack and db_attack.status != attack_data["status"]],
    on the row found; [tick] counts the readings of the clock. *)
Definition write_status (attack_data : Attack) (db_attack : DbAttack)
    (tick : nat) : DbAttack * nat :=
  if bool_decide (row_status (db_row db_attack) = status attack_data) then
    (db_attack, tick)
  else
    let r1 :=
      mkDbAttack (with_status (db_row db_attack) (status attack_data))
        (started_at db_attack) (ended_at db_attack) (success db_attack) in
    let '(r2, tick2) :=
      if bool_decide (status attack_data = active)
         && negb (bool_decide (is_Some (started_at r1)))
      then (mkDbAttack (db_row r1) (Some (utcnow tick)) (ended_at r1) (success r1),
            S tick)
      else (r1, tick) in
    if bool_decide (status attack_data = completed)
       && negb (bool_decide (is_Some (ended_at r2)))
    then (mkDbAttack (db_row r2) (started_at r2) (Some (utcnow tick2)) (Some true),
          S tick2)
    else (r2, tick2).

(** One iteration of the loop of [_update_attack_states]: the first row
    with the attack's identifier, if there is one, is written. *)
Fixpoint sync_first (attack_data : Attack) (rows : list DbAttack) (tick : nat)
    : list DbAttack * nat :=
  match rows with
  | [] => ([], tick)
  | row :: rest =>
      if String.eqb (row_attack_id (db_row row)) (attack_id attack_data) then
        let '(row', tick') := write_status attack_data row tick in
        (row' :: rest, tick')
      else
        let '(rest', tick') := sync_first attack_data rest tick in
        (row :: rest', tick')
  end.

(** [Simulator._update_attack_states], over the registry of the attack
    service, in registry order. *)
Definition _update_attack_states (svc : list Attack) (rows : list DbAttack)
    (tick : nat) : list DbAttack * nat :=
  fold_left (fun acc attack_data => sync_first attack_data acc.1 acc.2)
    svc (rows, tick).

End AttackTable.


(** ** Simulator.step *)

(** What a step can raise: an exception of [inject_attacks], an exception of
    the component model, the controller or the solver, a database error, or
    a closed websocket. *)
Inductive step_exn : Type :=
  | InjectionError (e : pyerr)
  | ComponentError
  | DatabaseError
  | WebSocketDisconnect.

(** Whether the database and the websocket answer during a step. *)
Record Env : Type := mkEnv {
  db_up : bool;
  ws_open : bool
}.

(** The frame sent by [websocket.send_json]. *)
Record Telemetry (Control : Type) : Type := mkTelemetry {
  tm_t : Q;
  tm_real : gmap string Q;
  tm_observed : gmap string Q;
  tm_control : Control;
  tm_attacks : list Attack
}.

Arguments mkTelemetry {Control} _ _ _ _ _.
Arguments tm_t {Control} _.
Arguments tm_real {Control} _.
Arguments tm_observed {Control} _.
Arguments tm_control {Control} _.
Arguments tm_attacks {Control} _.

(** The simulator object: [run_id], [t], the real state and the memory of
    the controller. *)
Record Simulator (State CtrlState : Type) : Type := mkSimulator {
  sim_run_id : Z;
  sim_t : Q;
  sim_state : State;
  sim_ctrl : CtrlState
}.

Arguments mkSimulator {State CtrlState} _ _ _ _.
Arguments sim_run_id {State CtrlState} _.
Arguments sim_t {State CtrlState} _.
Arguments sim_state {State CtrlState} _.
Arguments sim_ctrl {State CtrlState} _.

(** Everything a step reads and writes: the simulator, the registry and the
    random generator of the attack service, the attack table and the clock. *)
Record Machine (State CtrlState : Type) : Type := mkMachine {
  m_sim : Simulator State CtrlState;
  m_service : list Attack;
  m_rng : nat;
  m_rows : list DbAttack;
  m_tick : nat
}.

Arguments mkMachine {State CtrlState} _ _ _ _ _.
Arguments m_sim {State CtrlState} _.
Arguments m_service {State CtrlState} _.
Arguments m_rng {State CtrlState} _.
Arguments m_rows {State CtrlState} _.
Arguments m_tick {State CtrlState} _.

Section Simulator.

(** The real state, the control actions and the controller's memory. *)
Variables State Control CtrlState : Type.

Variable normal : nat -> Q -> Q.
Variable utcnow : nat -> Z.

(** The component model ([signals], spec 4.2), the controller ([compute],
    spec 4.3) and the solver with the derivatives of the model ([step],
    spec 4.1) of the run; [None] when they raise. *)
Variable signals_of : State -> option (gmap string Q).
Variable controller_compute :
  CtrlState -> gmap string Q -> Q -> option (Control * CtrlState).
Variable solver_step :
  State -> gmap string Q -> Control -> Q -> Q -> option State.

(** [attack_service.get_active_attacks(run_id)], whose body is not in the
    sources: the list put in the frame. *)
Variable get_active_attacks : list Attack -> Z -> list Attack.

(** Modelled from the spec: the body of [Simulator._compute_real_signals]
    is missing from the sources.  Spec 4.5, step 1: "signals_real =
    merge(component.signals(state) for component in model)". *)
Definition _compute_real_signals (self : Simulator State CtrlState)
    : option (gmap string Q) :=
  signals_of (sim_state self).

(** Modelled from the spec: the body of [Simulator._compute_control] is
    missing from the sources.  Spec 4.5, step 3: "control =
    Controller.compute(signals_observed, dt) - the controller only ever sees
    the observed view"; spec 3: the ControllerState is "mutated once per step
    by the Controller".  [dt] is the step the simulator runs with. *)
Definition _compute_control (self : Simulator State CtrlState)
    (observed_signals : gmap string Q) (dt : Q)
    : option (Control * Simulator State CtrlState) :=
  match controller_compute (sim_ctrl self) observed_signals dt with
  | Some (control, ctrl') =>
      Some (control,
            mkSimulator (sim_run_id self) (sim_t self) (sim_state self) ctrl')
  | None => None
  end.

(** Modelled from the spec: the body of [Simulator._integrate] is missing
    from the sources.  Spec 4.5, step 4: "state' = Solver.step(derivatives,
    state, control, t, dt) using derivatives computed from real physics"; the
    real signals the source passes are handed on as well. *)
Definition _integrate (self : Simulator State CtrlState)
    (real_signals : gmap string Q) (control_actions : Control) (dt : Q)
    : option (Simulator State CtrlState) :=
  match solver_step (sim_state self) real_signals control_actions (sim_t self) dt with
  | Some state' =>
      Some (mkSimulator (sim_run_id self) (sim_t self) state' (sim_ctrl self))
  | None => None
  end.

(** [Simulator.step(dt, websocket)].  The first component is the machine as
    the step leaves it, also when it raises part-way. *)
Definition step (env : Env) (m : Machine State CtrlState) (dt : Q)
    : Machine State CtrlState * (step_exn + Telemetry Control) :=
  let self := m_sim m in
  match _compute_real_signals self with
  | None => (m, inl ComponentError)
  | Some real_signals =>
      match inject_attacks normal (m_service m) (m_rng m) (sim_t self)
              (sim_run_id self) real_signals with
      | (reg', inl e) =>
          (mkMachine self reg' (m_rng m) (m_rows m) (m_tick m),
           inl (InjectionError e))
      | (reg', inr (observed_signals, rng')) =>
          match _compute_control self observed_signals dt with
          | None =>
              (mkMachine self reg' rng' (m_rows m) (m_tick m), inl ComponentError)
          | Some (control_actions, self1) =>
              match _integrate self1 real_signals control_actions dt with
              | None =>
                  (mkMachine self1 reg' rng' (m_rows m) (m_tick m),
                   inl ComponentError)
              | Some self2 =>
                  if negb (db_up env) then
                    (mkMachine self2 reg' rng' (m_rows m) (m_tick m),
                     inl DatabaseError)
                  else
                    let '(rows', tick') :=
                      _update_attack_states utcnow reg' (m_rows m) (m_tick m) in
                    let frame :=
                      mkTelemetry (sim_t self2) real_signals observed_signals
                        control_actions
                        (get_active_attacks reg' (sim_run_id self2)) in
                    if negb (ws_open env) then
                      (mkMachine self2 reg' rng' rows' tick',
                       inl WebSocketDisconnect)
                    else
                      (mkMachine
                         (mkSimulator (sim_run_id self2) (sim_t self2 + dt)
                            (sim_state self2) (sim_ctrl self2))
                         reg' rng' rows' tick',
                       inr frame)
              end
          end
      end
  end.

End Simulator.

(** ** The RK4 solver *)

(** [rk4_step(f, y, t, dt)] *)
Definition rk4_step (f : Q -> Q -> Q) (y t dt : Q) : Q :=
  let k1 := f t y in
  let k2 := f (t + dt / 2) (y + dt * k1 / 2) in
  let k3 := f (t + dt / 2) (y + dt * k2 / 2) in
  let k4 := f (t + dt) (y + dt * k3) in
  y + (dt / 6) * (k1 + 2 * k2 + 2 * k3 + k4).

(** A call of [f] that records the point it is evaluated at. *)
Definition traced_call (f : Q -> Q -> Q) (t y : Q) (log : list (Q * Q))
    : Q * list (Q * Q) :=
  (f t y, log ++ [(t, y)]).

(** [rk4_step] with every evaluation of [f] recorded, in program order. *)
Definition rk4_step_traced (f : Q -> Q -> Q) (y t dt : Q) (log : list (Q * Q))
    : Q * list (Q * Q) :=
  let '(k1, log) := traced_call f t y log in
  let '(k2, log) := traced_call f (t + dt / 2) (y + dt * k1 / 2) log in
  let '(k3, log) := traced_call f (t + dt / 2) (y + dt * k2 / 2) log in
  let '(k4, log) := traced_call f (t + dt) (y + dt * k3) log in
  (y + (dt / 6) * (k1 + 2 * k2 + 2 * k3 + k4), log).

(** ** Sample inputs

    The scenarios of the attack guide, used to run the definitions. *)

Module Samples.

(** A generator whose every draw is [0]. *)
Definition quiet : nat -> Q -> Q := fun _ _ => 0.

Definition mk_params (target : string) (extra : list (string * pyval))
    : gmap string pyval :=
  list_to_map (("target_signal", VStr target) :: extra).

(** False data injection of 8.5 on the level sensor, from t=10 for 20 s. *)
Definition fdi : Attack :=
  mkAttack "fdi-1" FALSE_DATA "tank.level_sensor" 10 (Some 20)
    (mk_params "tank.level_sensor" [("false_value", VNum 8.5)]) armed.

(** The same attack registered with a duration of 0. *)
Definition fdi_zero : Attack :=
  mkAttack "fdi-0" FALSE_DATA "tank.level_sensor" 10 (Some 0)
    (mk_params "tank.level_sensor" [("false_value", VNum 8.5)]) armed.

(** The replay attack of the specification: buffer [0.5, 0.52, 0.48]. *)
Definition replay : Attack :=
  mkAttack "replay-1" REPLAY "flow_sensor" 60 (Some 40)
    (mk_params "flow_sensor" [("replay_buffer", VList [0.5; 0.52; 0.48])])
    armed.

(** The ramp attack of the guide: +0.1 per second from t=100 for 50 s. *)
Definition ramp : Attack :=
  mkAttack "ramp-1" RAMP "temperature_sensor" 100 (Some 50)
    (mk_params "temperature_sensor" [("rate", VNum 0.1)]) armed.

Definition signals : gmap string Q :=
  list_to_map
    [("tank.level_sensor", 5.2); ("flow_sensor", 0.3);
     ("temperature_sensor", 26)].

Definition run1 : SimulationRun := mkRun 1 7.

Definition backend0 : Backend := mkBackend [run1] [] [].

(** A registration request with [duration = 0]. *)
Definition request_zero : AttackCreateRequest :=
  mkRequest 1 FALSE_DATA "tank.level_sensor" 10 (Some 0)
    {[ "false_value" := VNum 8.5 ]}.

(** A request whose required [false_value] is missing. *)
Definition request_missing : AttackCreateRequest :=
  mkRequest 1 FALSE_DATA "tank.level_sensor" 10 (Some 20) ∅.

Definition row_with (s : Status) : AttackRow :=
  mkRow 2 "fdi-1" 1 FALSE_DATA "tank.level_sensor" 10 (Some 20)
    {[ "false_value" := VNum 8.5 ]} s.

Definition backend_with (s : Status) : Backend :=
  mkBackend [run1] [row_with s] [set_status fdi s].

(** [dy/dt = -0.5 y] *)
Definition decay : Q -> Q -> Q := fun _ y => - (1 # 2) * y.

(** A tank whose only state variable is its level, read by one sensor. *)
Definition tank_signals (level : Q) : option (gmap string Q) :=
  Some {[ "tank.level_sensor" := level ]}.

(** An on/off law: the inlet is opened below the setpoint 7 and closed
    otherwise; it keeps no memory and raises when the sensor is missing. *)
Definition on_off (c : unit) (observed : gmap string Q) (dt : Q)
    : option (Q * unit) :=
  match observed !! "tank.level_sensor" with
  | Some v => Some (if Qltb v 7 then 1 else 0, c)
  | None => None
  end.

(** One Euler step of [dlevel/dt = u - 0.1]. *)
Definition tank_euler (level : Q) (real : gmap string Q) (u t dt : Q)
    : option Q :=
  Some (level + dt * (u - 0.1)).

(** False data injection of 9.9 on the level sensor, unbounded. *)
Definition fdi_high : Attack :=
  mkAttack "fdi-2" FALSE_DATA "tank.level_sensor" 0 None
    (mk_params "tank.level_sensor" [("false_value", VNum 9.9)]) armed.

Definition tank_sim : Simulator Q unit := mkSimulator 1 0 8 tt.

(** The machine of a run of the tank with the given registry. *)
Definition tank_machine (reg : list Attack) : Machine Q unit :=
  mkMachine tank_sim reg 0 [] 0.

Definition clock : nat -> Z := fun k => Z.of_nat k.

Definition listed (reg : list Attack) (run_id : Z) : list Attack :=
  List.filter (fun a => bool_decide (status a = active)) reg.

Definition env_up : Env := mkEnv true true.

End Samples.

(** ** Loading the attacks of a run *)

(** [Simulator._load_attacks_from_db]: the rows of this run whose status is
    armed or active are registered, in table order.  [target_signal_of] reads
    the [target_signal] column of a row, which [AttackRow] does not carry. *)
Definition _load_attacks_from_db (target_signal_of : AttackRow -> string)
    (run_id : Z) (st : Backend) : Backend :=
  mkBackend (runs st) (attacks st)
    (fold_left
       (fun reg attack =>
          register_attack reg (row_attack_id attack) (row_attack_type attack)
            (target_signal_of attack) (row_trigger_time attack)
            (row_duration attack)
            (row_parameters attack
             ∪ {[ "target_signal" := VStr (target_signal_of attack) ]}))
       (List.filter
          (fun attack =>
             (row_simulation_run_id attack =? run_id)%Z
             && (bool_decide (row_status attack = armed)
                 || bool_decide (row_status attack = active)))
          (attacks st))
       (service st)).

(** Further inputs for the definitions above. *)
Module MoreSamples.

(** A denial of service on the level sensor with the default blocked value. *)
Definition dos : Attack :=
  mkAttack "dos-1" DOS "tank.level_sensor" 30 (Some 20)
    (Samples.mk_params "tank.level_sensor" []) armed.

(** A noise attack on the flow sensor. *)
Definition noise : Attack :=
  mkAttack "noise-1" RANDOM_NOISE "flow_sensor" 0 None
    (Samples.mk_params "flow_sensor" [("noise_std", VNum 2)]) armed.

(** A replay attack registered with an empty buffer. *)
Definition replay_empty : Attack :=
  mkAttack "replay-0" REPLAY "flow_sensor" 60 (Some 40)
    (Samples.mk_params "flow_sensor" [("replay_buffer", VList [])]) armed.

(** A ramp on a signal the model does not produce. *)
Definition ramp_unknown : Attack :=
  mkAttack "ramp-2" RAMP "pressure_sensor" 100 (Some 50)
    (Samples.mk_params "pressure_sensor" [("rate", VNum 0.1)]) armed.

(** A request whose parameters carry their own ["target_signal"]. *)
Definition request_override : AttackCreateRequest :=
  mkRequest 1 FALSE_DATA "tank.level_sensor" 10 (Some 20)
    (list_to_map [("target_signal", VStr "flow_sensor"); ("false_value", VNum 8.5)]).

(** A well-formed request. *)
Definition request_ok : AttackCreateRequest :=
  mkRequest 1 FALSE_DATA "tank.level_sensor" 10 (Some 20)
    {[ "false_value" := VNum 8.5 ]}.


End MoreSamples.

(** ** Comparisons and the time window *)

(** Closes a goal whose hypothesis [H] says that a call on concrete inputs
    raised, by running the call. *)
Ltac call_returns H :=
  match type of H with
  | ?c = (_, inl _) =>
      let Hs := fresh "Hs" in
      assert (Hs : match snd c with inl _ => false | inr _ => true end = true)
        by (vm_compute; reflexivity);
      rewrite H in Hs; discriminate Hs
  end.

Lemma Qltb_lt (x y : Q) : Qltb x y = true <-> x < y.
Proof.
  unfold Qltb. rewrite Qlt_alt. destruct (x ?= y); split; congruence.
Qed.

Lemma Qltb_ge (x y : Q) : Qltb x y = false <-> y <= x.
Proof.
  rewrite <- not_true_iff_false, Qltb_lt. split.
  - apply Qnot_lt_le.
  - apply Qle_not_lt.
Qed.

Lemma truthy_Some (d : Q) : truthy (Some d) = true <-> ~ d == 0.
Proof.
  unfold truthy. rewrite negb_true_iff, <- not_true_iff_false, Qeq_bool_iff.
  tauto.
Qed.

Lemma truthy_Some_false (d : Q) : truthy (Some d) = false <-> d == 0.
Proof.
  unfold truthy. rewrite negb_false_iff, Qeq_bool_iff. tauto.
Qed.

Lemma past_window_true (t : Q) (a : Attack) :
  past_window t a = true <->
  exists d, duration a = Some d /\ ~ d == 0 /\ start_time a + d < t.
Proof.
  unfold past_window. destruct (duration a) as [d|].
  - rewrite andb_true_iff, truthy_Some, Qltb_lt. split.
    + intros [H1 H2]. exists d. auto.
    + intros (d' & Hd & H1 & H2). inversion Hd; subst. auto.
  - split; [discriminate | intros (d & Hd & _); discriminate].
Qed.

(** The window the code implements is closed on both sides, and a
    duration of [None] or [0.0] leaves it open-ended. *)
Lemma in_window_true (t : Q) (a : Attack) :
  in_window t a = true <->
  start_time a <= t /\
  match duration a with
  | None => True
  | Some d => d == 0 \/ t <= start_time a + d
  end.
Proof.
  unfold in_window, past_window.
  rewrite andb_true_iff, !negb_true_iff, Qltb_ge.
  destruct (duration a) as [d|].
  - rewrite andb_false_iff, truthy_Some_false, Qltb_ge. tauto.
  - tauto.
Qed.

Lemma in_window_finite (t d : Q) (a : Attack) :
  duration a = Some d -> ~ d == 0 ->
  (in_window t a = true <-> start_time a <= t /\ t <= start_time a + d).
Proof.
  intros Hd Hnz. rewrite in_window_true, Hd. tauto.
Qed.

Lemma in_window_false_finite (t d : Q) (a : Attack) :
  duration a = Some d -> ~ d == 0 ->
  (in_window t a = false <-> t < start_time a \/ start_time a + d < t).
Proof.
  intros Hd Hnz. rewrite <- not_true_iff_false, (in_window_finite t d a Hd Hnz).
  split.
  - intros H. destruct (Qlt_le_dec t (start_time a)) as [|H1]; [auto|].
    destruct (Qlt_le_dec (start_time a + d) t) as [|H2]; [auto|].
    exfalso. auto.
  - intros [H|H] [H1 H2]; lra.
Qed.

(** ** The status writes *)

Lemma advance_fields (t : Q) (a : Attack) :
  attack_id (advance t a) = attack_id a /\
  type (advance t a) = type a /\
  target_signal (advance t a) = target_signal a /\
  start_time (advance t a) = start_time a /\
  duration (advance t a) = duration a /\
  params (advance t a) = params a.
Proof.
  unfold advance.
  destruct (Qltb t (start_time a)), (past_window t a),
    (bool_decide (status a = active)),
    (bool_decide (status a = armed) && Qle_bool (start_time a) t);
    simpl; auto 10.
Qed.

Lemma advance_before (t : Q) (a : Attack) :
  t < start_time a -> advance t a = a.
Proof.
  intros H. unfold advance. apply Qltb_lt in H. now rewrite H.
Qed.

Lemma advance_inside (t : Q) (a : Attack) :
  in_window t a = true ->
  advance t a = if bool_decide (status a = armed) then set_status a active else a.
Proof.
  unfold in_window, advance. rewrite andb_true_iff, !negb_true_iff.
  intros [H1 H2]. rewrite H1, H2.
  apply Qltb_ge, Qle_bool_iff in H1. rewrite H1, andb_true_r. reflexivity.
Qed.

Lemma advance_after (t : Q) (a : Attack) :
  start_time a <= t -> past_window t a = true ->
  advance t a = if bool_decide (status a = active) then set_status a completed else a.
Proof.
  intros Hs H. unfold advance. rewrite H.
  apply Qltb_ge in Hs. now rewrite Hs.
Qed.

(** ** Structure of the injection loop *)

Section InjectionFacts.

Variable normal : nat -> Q -> Q.

Lemma transform_ext (a b : Attack) t signals attacked rng :
  type a = type b -> params a = params b -> start_time a = start_time b ->
  transform normal a t signals attacked rng
  = transform normal b t signals attacked rng.
Proof. intros H1 H2 H3. unfold transform. now rewrite H1, H2, H3. Qed.

Lemma transform_advance (a : Attack) t signals attacked rng :
  transform normal (advance t a) t signals attacked rng
  = transform normal a t signals attacked rng.
Proof.
  destruct (advance_fields t a) as (_ & H1 & _ & H2 & _ & H3).
  now apply transform_ext.
Qed.

(** One iteration, read by window membership. *)
Lemma inject_loop_cons (a : Attack) rest t signals attacked rng :
  inject_loop normal t signals (a :: rest) attacked rng =
  if in_window t a then
    match transform normal a t signals attacked rng with
    | inl e => (advance t a :: rest, inl e)
    | inr (attacked', rng') =>
        let '(rest', r) := inject_loop normal t signals rest attacked' rng' in
        (advance t a :: rest', r)
    end
  else
    let '(rest', r) := inject_loop normal t signals rest attacked rng in
    (advance t a :: rest', r).
Proof.
  simpl. unfold in_window.
  destruct (Qltb t (start_time a)) eqn:E; simpl.
  - apply Qltb_lt in E. now rewrite (advance_before t a E).
  - assert (Hadv : advance t a
                   = if past_window t a then
                       (if bool_decide (status a = active)
                        then set_status a completed else a)
                     else
                       (if bool_decide (status a = armed)
                           && Qle_bool (start_time a) t
                        then set_status a active else a))
      by (unfold advance; now rewrite E).
    destruct (past_window t a); simpl; rewrite <- Hadv; [reflexivity|].
    now rewrite transform_advance.
Qed.

Lemma inject_loop_app (pre l : list Attack) t signals attacked rng :
  inject_loop normal t signals (pre ++ l) attacked rng =
  match inject_loop normal t signals pre attacked rng with
  | (pre', inl e) => (pre' ++ l, inl e)
  | (pre', inr (attacked1, rng1)) =>
      let '(l', r) := inject_loop normal t signals l attacked1 rng1 in
      (pre' ++ l', r)
  end.
Proof.
  revert attacked rng. induction pre as [|a pre IH]; intros attacked rng.
  - simpl. now destruct (inject_loop normal t signals l attacked rng).
  - rewrite <- app_comm_cons, !inject_loop_cons.
    destruct (in_window t a).
    + destruct (transform normal a t signals attacked rng) as [e|[att1 rng1]];
        [reflexivity|].
      rewrite IH.
      destruct (inject_loop normal t signals pre att1 rng1) as [pre' [e|[att2 rng2]]];
        [reflexivity|].
      now destruct (inject_loop normal t signals l att2 rng2).
    + rewrite IH.
      destruct (inject_loop normal t signals pre attacked rng) as [pre' [e|[att2 rng2]]];
        [reflexivity|].
      now destruct (inject_loop normal t signals l att2 rng2).
Qed.

Lemma inject_loop_length (reg : list Attack) t signals attacked rng :
  length (inject_loop normal t signals reg attacked rng).1 = length reg.
Proof.
  revert attacked rng. induction reg as [|a reg IH]; intros attacked rng;
    [reflexivity|].
  rewrite inject_loop_cons. destruct (in_window t a).
  - destruct (transform normal a t signals attacked rng) as [e|[att1 rng1]];
      [reflexivity|].
    specialize (IH att1 rng1).
    destruct (inject_loop normal t signals reg att1 rng1). simpl in *. lia.
  - specialize (IH attacked rng).
    destruct (inject_loop normal t signals reg attacked rng). simpl in *. lia.
Qed.

(** Every entry is either left as it was (the loop stopped before it) or
    carries the status writes of its iteration. *)
Lemma inject_loop_entries (reg : list Attack) t signals attacked rng :
  Forall2 (fun a a' => a' = a \/ a' = advance t a)
    reg (inject_loop normal t signals reg attacked rng).1.
Proof.
  revert attacked rng. induction reg as [|a reg IH]; intros attacked rng;
    [constructor|].
  rewrite inject_loop_cons. destruct (in_window t a).
  - destruct (transform normal a t signals attacked rng) as [e|[att1 rng1]].
    + simpl. constructor; [auto|]. apply Forall2_same_length_lookup_2; [done|].
      intros i x y Hx Hy. left. congruence.
    + specialize (IH att1 rng1).
      destruct (inject_loop normal t signals reg att1 rng1). simpl in *.
      constructor; auto.
  - specialize (IH attacked rng).
    destruct (inject_loop normal t signals reg attacked rng). simpl in *.
    constructor; auto.
Qed.

(** When the call returns, every attack went through its iteration. *)
Lemma inject_loop_ok_entries (reg reg' : list Attack) t signals attacked rng r :
  inject_loop normal t signals reg attacked rng = (reg', inr r) ->
  reg' = map (advance t) reg.
Proof.
  revert reg' attacked rng. induction reg as [|a reg IH]; intros reg' attacked rng.
  - simpl. now intros [= <- _].
  - rewrite inject_loop_cons. destruct (in_window t a).
    + destruct (transform normal a t signals attacked rng) as [e|[att1 rng1]];
        [discriminate|].
      destruct (inject_loop normal t signals reg att1 rng1) as [rest' r'] eqn:Hl.
      intros [= <- ->]. simpl. f_equal. exact (IH _ _ _ Hl).
    + destruct (inject_loop normal t signals reg attacked rng) as [rest' r'] eqn:Hl.
      intros [= <- ->]. simpl. f_equal. exact (IH _ _ _ Hl).
Qed.

(** An attack outside its window leaves the outcome of the call as if it
    were not registered. *)
Lemma inject_loop_skip (pre post : list Attack) (a : Attack) t signals attacked rng :
  in_window t a = false ->
  (inject_loop normal t signals (pre ++ a :: post) attacked rng).2
  = (inject_loop normal t signals (pre ++ post) attacked rng).2.
Proof.
  intros Hw. rewrite !inject_loop_app.
  destruct (inject_loop normal t signals pre attacked rng) as [pre' [e|[att1 rng1]]];
    [reflexivity|].
  rewrite inject_loop_cons, Hw.
  destruct (inject_loop normal t signals post att1 rng1). reflexivity.
Qed.

(** *** What one transform writes *)

Lemma transform_frame (a : Attack) t signals attacked rng attacked' rng' s :
  transform normal a t signals attacked rng = inr (attacked', rng') ->
  ~ writes_to a s ->
  attacked' !! s = attacked !! s.
Proof.
  unfold transform, writes_to. intros H Hs.
  destruct (get_str (params a) "target_signal") as [e|target];
    [destruct (type a); discriminate|].
  assert (target <> s) by congruence.
  destruct (type a).
  - destruct (params a !! "blocked_value") as [[]|]; inversion H; subst;
      now apply lookup_insert_ne.
  - destruct (get_num (params a) "false_value"); inversion H; subst;
      now apply lookup_insert_ne.
  - destruct (get_list (params a) "replay_buffer") as [|[|q buf]]; try discriminate.
    destruct (_ !! _); inversion H; subst. now apply lookup_insert_ne.
  - destruct (get_num (params a) "rate"); try discriminate.
    destruct (signals !! target); inversion H; subst. now apply lookup_insert_ne.
  - destruct (get_num (params a) "noise_std"); try discriminate.
    destruct (Qltb _ _); try discriminate.
    destruct (signals !! target); inversion H; subst. now apply lookup_insert_ne.
Qed.

(** Signals no in-window attack writes keep the value they had when the
    loop started. *)
Lemma inject_loop_frame (reg : list Attack) t signals attacked rng reg' obs rng' s :
  inject_loop normal t signals reg attacked rng = (reg', inr (obs, rng')) ->
  (forall a, a ∈ reg -> in_window t a = true -> ~ writes_to a s) ->
  obs !! s = attacked !! s.
Proof.
  revert reg' attacked rng. induction reg as [|a reg IH]; intros reg' attacked rng.
  - simpl. now intros [= _ <- _] _.
  - rewrite inject_loop_cons. intros H Hno.
    assert (Hrest : forall b, b ∈ reg -> in_window t b = true -> ~ writes_to b s)
      by (intros b Hb; apply Hno; now right).
    destruct (in_window t a) eqn:Hw.
    + destruct (transform normal a t signals attacked rng) as [e|[att1 rng1]] eqn:Ht;
        [discriminate|].
      destruct (inject_loop normal t signals reg att1 rng1) as [rest' r'] eqn:Hl.
      inversion H; subst.
      rewrite (IH _ _ _ Hl Hrest).
      eapply transform_frame; [exact Ht|]. apply Hno; [left|exact Hw].
    + destruct (inject_loop normal t signals reg attacked rng) as [rest' r'] eqn:Hl.
      inversion H; subst. exact (IH _ _ _ Hl Hrest).
Qed.

(** The value observed on a signal is the one written by the last
    in-window attack on it. *)
Lemma inject_loop_last_writer (pre post : list Attack) (a : Attack)
    t signals attacked rng reg' obs rng' s :
  inject_loop normal t signals (pre ++ a :: post) attacked rng
    = (reg', inr (obs, rng')) ->
  in_window t a = true ->
  (forall b, b ∈ post -> in_window t b = true -> ~ writes_to b s) ->
  exists att0 rng0 att1 rng1,
    transform normal a t signals att0 rng0 = inr (att1, rng1) /\
    obs !! s = att1 !! s.
Proof.
  rewrite inject_loop_app. intros H Hw Hpost.
  destruct (inject_loop normal t signals pre attacked rng) as [pre' [e|[att0 rng0]]];
    [discriminate|].
  rewrite inject_loop_cons, Hw in H.
  destruct (transform normal a t signals att0 rng0) as [e|[att1 rng1]] eqn:Ht;
    [discriminate|].
  destruct (inject_loop normal t signals post att1 rng1) as [post' r'] eqn:Hl.
  inversion H; subst.
  exists att0, rng0, att1, rng1. split; [exact Ht|].
  eapply inject_loop_frame; eauto.
Qed.

End InjectionFacts.

(** ** The life-cycle *)

Lemma lifecycle_step_le (s s' : Status) : lifecycle_step s s' -> lifecycle_le s s'.
Proof. unfold lifecycle_step, lifecycle_le. tauto. Qed.

Lemma lifecycle_le_trans (s1 s2 s3 : Status) :
  lifecycle_le s1 s2 -> lifecycle_le s2 s3 -> lifecycle_le s1 s3.
Proof.
  unfold lifecycle_le.
  intros [->|[[-> [->| ->]]|[-> ->]]] [->|[[E [->| ->]]|[E ->]]];
    try discriminate E; auto 6.
Qed.

Lemma advance_lifecycle (t : Q) (a : Attack) :
  lifecycle_step (status a) (status (advance t a)).
Proof.
  unfold advance, lifecycle_step.
  destruct (Qltb t (start_time a)); [auto|].
  destruct (past_window t a).
  - case_bool_decide; simpl; auto.
  - destruct (bool_decide (status a = armed)) eqn:E; simpl; [|auto].
    apply bool_decide_eq_true in E.
    destruct (Qle_bool (start_time a) t); simpl; auto.
Qed.

Lemma advance_outside (t : Q) (a : Attack) :
  in_window t a = false -> status a <> active -> advance t a = a.
Proof.
  unfold in_window, advance. intros Hw Hs.
  destruct (Qltb t (start_time a)); [reflexivity|].
  destruct (past_window t a); [|discriminate].
  now rewrite bool_decide_eq_false_2.
Qed.

Lemma advance_set_status (t : Q) (a : Attack) :
  set_status (advance t a) (status a) = a.
Proof.
  destruct (advance_fields t a) as (H1 & H2 & H3 & H4 & H5 & H6).
  unfold set_status. rewrite H1, H2, H3, H4, H5, H6. now destruct a.
Qed.

Lemma entry_le_trans (a b c : Attack) : entry_le a b -> entry_le b c -> entry_le a c.
Proof.
  intros [H1 H2] [H3 H4]. split; [|eapply lifecycle_le_trans; eauto].
  rewrite <- H1 at 2. rewrite <- H3. reflexivity.
Qed.

Lemma inject_attacks_entry_step normal reg rng t run_id signals :
  Forall2 entry_step reg (inject_attacks normal reg rng t run_id signals).1.
Proof.
  unfold inject_attacks.
  eapply Forall2_impl; [apply inject_loop_entries|].
  intros a a' [->| ->]; split.
  - now destruct a.
  - now left.
  - apply advance_set_status.
  - apply advance_lifecycle.
Qed.

Lemma inject_calls_entry_le normal reg calls :
  Forall2 entry_le reg (inject_calls normal reg calls).
Proof.
  revert reg. induction calls as [|c calls IH]; intros reg; simpl.
  - apply Forall2_same_length_lookup_2; [done|].
    intros i x y Hx Hy. assert (x = y) as -> by congruence.
    split; [now destruct y | now left].
  - eapply Forall2_trans; [| |apply IH].
    + intros x y z. apply entry_le_trans.
    + eapply Forall2_impl; [apply inject_attacks_entry_step|].
      intros a a' [H1 H2]. split; [exact H1 | now apply lifecycle_step_le].
Qed.

(** ** Claims on the life-cycle and the frame of [inject_attacks] *)

(** C6.  Across every sequence of [inject_attacks] calls, at arbitrary times,
    every entry of the registry keeps all its fields but the status; a single
    call writes at most one of the transitions armed -> active and
    active -> completed; and over the whole sequence the status only moves
    forward: an active attack is never armed again, and a completed attack
    stays completed. *)
Theorem lifecycle_one_way (normal : nat -> Q -> Q) (reg : list Attack)
    (calls : list call) :
  (forall c : call,
     Forall2 entry_step reg
       (inject_attacks normal reg (call_rng c) (call_t c) (call_run_id c)
          (call_signals c)).1) /\
  Forall2
    (fun a a' =>
       entry_le a a' /\
       (status a = active -> status a' <> armed) /\
       (status a = completed -> status a' = completed))
    reg (inject_calls normal reg calls).
Proof.
  split.
  - intros c. apply inject_attacks_entry_step.
  - eapply Forall2_impl; [apply inject_calls_entry_le|].
    intros a a' H. split; [exact H|]. destruct H as [_ H].
    unfold lifecycle_le in H. split; intros Hs; rewrite Hs in H.
    + destruct H as [->|[[E _]|[_ ->]]]; [discriminate| discriminate E |discriminate].
    + destruct H as [->|[[E _]|[E _]]]; [reflexivity| discriminate E | discriminate E].
Qed.

(** C3.  When [inject_attacks(t, signals)] returns, every signal name that no
    attack whose window contains [t] writes to has the same entry in the
    returned map as in [signals]. *)
Theorem inject_attacks_frame (normal : nat -> Q -> Q) (reg : list Attack)
    (rng : nat) (t : Q) (run_id : Z) (signals : gmap string Q)
    (reg' : list Attack) (obs : gmap string Q) (rng' : nat) (s : string) :
  inject_attacks normal reg rng t run_id signals = (reg', inr (obs, rng')) ->
  (forall a, a ∈ reg -> in_window t a = true -> ~ writes_to a s) ->
  obs !! s = signals !! s.
Proof.
  unfold inject_attacks. apply inject_loop_frame.
Qed.

Lemma inject_attacks_frame_witness :
  match inject_attacks Samples.quiet [Samples.fdi; Samples.ramp] 0 15 1
          Samples.signals with
  | (_, inr (obs, _)) =>
      obs !! "tank.level_sensor" = Some 8.5 /\
      obs !! "flow_sensor" = Samples.signals !! "flow_sensor"
  | (_, inl _) => False
  end.
Proof.
  destruct (inject_attacks Samples.quiet [Samples.fdi; Samples.ramp] 0 15 1
              Samples.signals) as [reg' [e|[obs rng']]] eqn:H.
  - call_returns H.
  - split.
    + assert (Hv : match snd (inject_attacks Samples.quiet
                                [Samples.fdi; Samples.ramp] 0 15 1 Samples.signals)
                   with
                   | inr (m, _) => m !! "tank.level_sensor"
                   | inl _ => None
                   end = Some 8.5) by (vm_compute; reflexivity).
      rewrite H in Hv. exact Hv.
    + apply (inject_attacks_frame Samples.quiet [Samples.fdi; Samples.ramp] 0 15 1
               Samples.signals reg' obs rng' "flow_sensor" H).
      intros a Ha _. unfold writes_to.
      apply list_elem_of_In in Ha. simpl in Ha.
      destruct Ha as [<-|[<-|[]]]; vm_compute; discriminate.
Defined.

(** C3 as stated fails when "the target_signal of an attack" is the one it
    was registered with and when "active" is the status: an attack created
    through [create_attack] for [tank.level_sensor], with a ["target_signal"]
    entry among its parameters, changes [flow_sensor], which is the
    registered target of no attack; and an attack whose status is completed
    still changes its target when a call falls inside its window. *)
Lemma frame_by_registered_target_counterexample :
  match create_attack spec_validate_attack_params 5 "uuid-5"
          MoreSamples.request_override 7 Samples.backend0 with
  | (st, inr _) =>
      map target_signal (service st) = ["tank.level_sensor"] /\
      match (inject_attacks Samples.quiet (service st) 0 15 1 Samples.signals).2 with
      | inr (obs, _) =>
          obs !! "flow_sensor" = Some 8.5 /\
          Samples.signals !! "flow_sensor" = Some 0.3
      | inl _ => False
      end
  | (_, inl _) => False
  end /\
  (let r := inject_attacks Samples.quiet [set_status Samples.fdi completed]
              0 15 1 Samples.signals in
   map status r.1 = [completed] /\
   match r.2 with
   | inr (obs, _) =>
       obs !! "tank.level_sensor" = Some 8.5 /\
       Samples.signals !! "tank.level_sensor" = Some 5.2
   | inl _ => False
   end).
Proof.
  split.
  - vm_compute. auto.
  - cbv zeta. split; [vm_compute; reflexivity|]. vm_compute. auto.
Qed.

(** The entry at the position of [a] after a call that returned. *)
Lemma inject_attacks_ok_at (normal : nat -> Q -> Q) (pre post : list Attack)
    (a : Attack) rng t run_id signals reg' r :
  inject_attacks normal (pre ++ a :: post) rng t run_id signals = (reg', inr r) ->
  reg' !! length pre = Some (advance t a).
Proof.
  unfold inject_attacks. intros H. apply inject_loop_ok_entries in H. subst reg'.
  rewrite map_app. simpl.
  rewrite lookup_app_r by (rewrite length_map; lia).
  rewrite length_map, Nat.sub_diag. reflexivity.
Qed.

(** A call that returned went through the transform of every attack whose
    window contains [t]. *)
Lemma inject_loop_ok_inv (normal : nat -> Q -> Q) (pre post : list Attack)
    (a : Attack) t signals attacked rng reg' obs rng' :
  inject_loop normal t signals (pre ++ a :: post) attacked rng
    = (reg', inr (obs, rng')) ->
  in_window t a = true ->
  exists pre' att0 rng0 att1 rng1 post',
    inject_loop normal t signals pre attacked rng = (pre', inr (att0, rng0)) /\
    transform normal a t signals att0 rng0 = inr (att1, rng1) /\
    inject_loop normal t signals post att1 rng1 = (post', inr (obs, rng')).
Proof.
  rewrite inject_loop_app. intros H Hw.
  destruct (inject_loop normal t signals pre attacked rng) as [pre' [e|[att0 rng0]]];
    [discriminate|].
  rewrite inject_loop_cons, Hw in H.
  destruct (transform normal a t signals att0 rng0) as [e|[att1 rng1]] eqn:Ht;
    [discriminate|].
  destruct (inject_loop normal t signals post att1 rng1) as [post' r'] eqn:Hl.
  inversion H; subst.
  exists pre', att0, rng0, att1, rng1, post'. auto.
Qed.

(** C1 (amended).  For an attack with a finite, strictly positive duration
    [d] and a call of [inject_attacks] at time [t] that returns: before
    [start_time] the entry is left as it was and the outcome of the call is
    the one the registry gives without the attack; for
    [start_time <= t <= start_time + d] (both ends included) an armed attack
    becomes active and its transform is run, between the attacks registered
    before it and those registered after it; for [t > start_time + d] the
    outcome is again the one without the attack, and the attack becomes
    completed if it was active. *)
Theorem status_by_closed_window (normal : nat -> Q -> Q)
    (pre post : list Attack) (a : Attack) (d : Q) (rng : nat) (t : Q)
    (run_id : Z) (signals : gmap string Q) (reg' : list Attack)
    (obs : gmap string Q) (rng' : nat) :
  duration a = Some d -> 0 < d ->
  inject_attacks normal (pre ++ a :: post) rng t run_id signals
    = (reg', inr (obs, rng')) ->
  exists a',
    reg' !! length pre = Some a' /\
    (t < start_time a ->
       a' = a /\
       (inject_attacks normal (pre ++ post) rng t run_id signals).2
         = inr (obs, rng')) /\
    (start_time a <= t /\ t <= start_time a + d ->
       a' = (if bool_decide (status a = armed) then set_status a active else a) /\
       exists pre' att0 rng0 att1 rng1 post',
         inject_loop normal t signals pre signals rng = (pre', inr (att0, rng0)) /\
         transform normal a t signals att0 rng0 = inr (att1, rng1) /\
         inject_loop normal t signals post att1 rng1 = (post', inr (obs, rng'))) /\
    (start_time a + d < t ->
       a' = (if bool_decide (status a = active) then set_status a completed else a) /\
       (inject_attacks normal (pre ++ post) rng t run_id signals).2
         = inr (obs, rng')).
Proof.
  intros Hd Hpos H.
  assert (Hnz : ~ d == 0) by lra.
  exists (advance t a). split; [eapply inject_attacks_ok_at; eauto|].
  assert (Hout : in_window t a = false ->
                 (inject_attacks normal (pre ++ post) rng t run_id signals).2
                 = inr (obs, rng')).
  { intros Hw. unfold inject_attacks in *.
    rewrite <- (inject_loop_skip normal pre post a t signals signals rng Hw).
    now rewrite H. }
  split; [|split].
  - intros Hlt. split; [now apply advance_before|].
    apply Hout, (in_window_false_finite t d a Hd Hnz). now left.
  - intros Hin.
    assert (Hw : in_window t a = true) by now apply (in_window_finite t d a Hd Hnz).
    split; [now apply advance_inside|].
    unfold inject_attacks in H.
    exact (inject_loop_ok_inv normal pre post a t signals signals rng
             reg' obs rng' H Hw).
  - intros Hgt. split.
    + apply advance_after; [lra|]. apply past_window_true. eauto.
    + apply Hout, (in_window_false_finite t d a Hd Hnz). now right.
Qed.

Lemma status_by_closed_window_witness :
  duration Samples.fdi = Some 20 /\ 0 < 20 /\
  exists a',
    (inject_attacks Samples.quiet ([] ++ Samples.fdi :: []) 0 30 1
       Samples.signals).1 !! 0%nat = Some a' /\
    status a' = active.
Proof.
  split; [reflexivity|]. split; [reflexivity|].
  destruct (inject_attacks Samples.quiet ([] ++ Samples.fdi :: []) 0 30 1
              Samples.signals) as [reg' [e|[obs rng']]] eqn:H.
  - call_returns H.
  - destruct (status_by_closed_window Samples.quiet [] [] Samples.fdi 20 0 30 1
                Samples.signals reg' obs rng' eq_refl eq_refl H)
      as (a' & Hl & _ & Hin & _).
    exists a'. split; [exact Hl|].
    destruct Hin as [-> _]; [split; discriminate|]. reflexivity.
Defined.

(** C1 as stated fails at the end of the window: the attack registered with
    [start_time = 10] and [duration = 20] is still active at [t = 30], and
    its transform is applied there. *)
Lemma status_at_window_end_counterexample :
  let r := inject_attacks Samples.quiet [Samples.fdi] 0 (10 + 20) 1
             Samples.signals in
  map status r.1 = [active] /\
  map status r.1 <> [completed] /\
  r.2 <> inr (Samples.signals, 0%nat) /\
  match r.2 with
  | inr (obs, _) => obs !! "tank.level_sensor" = Some 8.5
  | inl _ => False
  end.
Proof.
  cbv zeta. split; [vm_compute; reflexivity|].
  split; [vm_compute; discriminate|].
  split; [|vm_compute; reflexivity].
  intros H.
  apply (f_equal (fun r : pyerr + (gmap string Q * nat) =>
                    match r with
                    | inr (m, _) => m !! "tank.level_sensor"
                    | inl _ => None
                    end)) in H.
  vm_compute in H. discriminate H.
Qed.

(** ** A window no call falls into *)

Lemma Forall2_entry_at {A} (R : A -> A -> Prop) (pre post : list A) (a : A)
    (l : list A) :
  Forall2 R (pre ++ a :: post) l ->
  exists pre' a' post',
    l = pre' ++ a' :: post' /\ length pre' = length pre /\ R a a'.
Proof.
  intros H. apply Forall2_app_inv_l in H as (pre' & k & Hpre & Hk & ->).
  apply Forall2_cons_inv_l in Hk as (a' & post' & Ha & _ & ->).
  exists pre', a', post'. split; [reflexivity|]. split; [|exact Ha].
  symmetry. eapply Forall2_length; eauto.
Qed.

Lemma inject_attacks_missed (normal : nat -> Q -> Q) (pre post : list Attack)
    (a : Attack) (c : call) :
  in_window (call_t c) a = false -> status a <> active ->
  exists pre' post',
    (inject_attacks normal (pre ++ a :: post) (call_rng c) (call_t c)
       (call_run_id c) (call_signals c)).1 = pre' ++ a :: post' /\
    length pre' = length pre.
Proof.
  intros Hw Hs.
  destruct (Forall2_entry_at _ pre post a _
              (inject_loop_entries normal (pre ++ a :: post) (call_t c)
                 (call_signals c) (call_signals c) (call_rng c)))
    as (pre' & a' & post' & Heq & Hlen & Ha).
  exists pre', post'. split; [|exact Hlen].
  unfold inject_attacks. rewrite Heq.
  destruct Ha as [->| ->]; [reflexivity|].
  now rewrite (advance_outside _ _ Hw Hs).
Qed.

(** C10 (amended).  For an attack that is armed and has a finite, non-zero
    duration [d]: if no call of a sequence of [inject_attacks] calls has its
    time in [start_time, start_time + d], the entry of the attack is the same
    after the sequence, with status armed; and every call at a time outside
    that interval, also after the window has passed, has the outcome it
    would have without the attack. *)
Theorem missed_window_stays_armed (normal : nat -> Q -> Q)
    (pre post : list Attack) (a : Attack) (d : Q) (calls : list call) :
  duration a = Some d -> ~ d == 0 -> status a = armed ->
  Forall (fun c => ~ (start_time a <= call_t c /\ call_t c <= start_time a + d))
    calls ->
  exists pre' post',
    inject_calls normal (pre ++ a :: post) calls = pre' ++ a :: post' /\
    length pre' = length pre /\
    forall c : call,
      ~ (start_time a <= call_t c /\ call_t c <= start_time a + d) ->
      (inject_attacks normal (pre' ++ a :: post') (call_rng c) (call_t c)
         (call_run_id c) (call_signals c)).2
      = (inject_attacks normal (pre' ++ post') (call_rng c) (call_t c)
           (call_run_id c) (call_signals c)).2.
Proof.
  intros Hd Hnz Hs Hcalls.
  assert (Hw : forall c : call,
             ~ (start_time a <= call_t c /\ call_t c <= start_time a + d) ->
             in_window (call_t c) a = false).
  { intros c Hc. apply not_true_iff_false.
    now rewrite (in_window_finite _ d a Hd Hnz). }
  assert (Hna : status a <> active) by (rewrite Hs; discriminate).
  revert pre post. induction Hcalls as [|c calls Hc _ IH]; intros pre post.
  - exists pre, post. split; [reflexivity|]. split; [reflexivity|].
    intros c Hc. apply inject_loop_skip. auto.
  - simpl.
    destruct (inject_attacks_missed normal pre post a c (Hw c Hc) Hna)
      as (pre1 & post1 & -> & Hlen1).
    destruct (IH pre1 post1) as (pre' & post' & Heq & Hlen & Hskip).
    exists pre', post'. split; [exact Heq|]. split; [congruence|exact Hskip].
Qed.

Lemma missed_window_stays_armed_witness :
  exists pre' post',
    inject_calls Samples.quiet ([] ++ Samples.fdi :: [Samples.ramp])
      [mkCall 0 9 1 Samples.signals; mkCall 0 31 1 Samples.signals]
    = pre' ++ Samples.fdi :: post' /\
    length pre' = 0%nat.
Proof.
  destruct (missed_window_stays_armed Samples.quiet [] [Samples.ramp]
              Samples.fdi 20
              [mkCall 0 9 1 Samples.signals; mkCall 0 31 1 Samples.signals])
    as (pre' & post' & Heq & Hlen & _).
  - reflexivity.
  - discriminate.
  - reflexivity.
  - repeat constructor; simpl; intros [H1 H2];
      [apply Qle_bool_iff in H1 | apply Qle_bool_iff in H2]; discriminate.
  - exists pre', post'. split; [exact Heq | exact Hlen].
Defined.

(** C10 as stated fails for a duration of [0.0], which the registration
    schema admits: the test [duration and ...] is then false, so a call at
    [t = 11], outside [10, 10 + 0], activates the attack and applies its
    transform. *)
Lemma zero_duration_counterexample :
  let r := inject_attacks Samples.quiet [Samples.fdi_zero] 0 11 1
             Samples.signals in
  duration Samples.fdi_zero = Some 0 /\
  ~ (start_time Samples.fdi_zero <= 11 /\ 11 <= start_time Samples.fdi_zero + 0) /\
  map status r.1 = [active] /\
  map status r.1 <> [armed] /\
  match r.2 with
  | inr (obs, _) =>
      obs !! "tank.level_sensor" = Some 8.5 /\
      Samples.signals !! "tank.level_sensor" = Some 5.2
  | inl _ => False
  end.
Proof.
  cbv zeta. split; [reflexivity|].
  split; [intros [_ H]; apply Qle_bool_iff in H; discriminate|].
  split; [vm_compute; reflexivity|].
  split; [vm_compute; discriminate|].
  vm_compute. split; reflexivity.
Qed.

(** ** The replay and ramp transforms *)

Lemma py_int_floor (x : Q) : 0 <= x -> py_int x = Qfloor x.
Proof.
  destruct x as [n d]. unfold py_int, Qfloor, Qle. simpl. intros H.
  apply Z.quot_div_nonneg; lia.
Qed.

Lemma transform_replay (normal : nat -> Q -> Q) (a : Attack) t signals att0 rng0
    att1 rng1 s buffer :
  type a = REPLAY -> writes_to a s ->
  get_list (params a) "replay_buffer" = inr buffer ->
  transform normal a t signals att0 rng0 = inr (att1, rng1) ->
  buffer <> [] /\
  is_Some (att1 !! s) /\
  att1 !! s
  = buffer !! Z.to_nat (py_int (t - start_time a) mod Z.of_nat (length buffer)).
Proof.
  unfold transform, writes_to. intros -> -> -> H.
  destruct buffer as [|q buf]; [discriminate|].
  split; [discriminate|].
  destruct (_ !! _) as [v|] eqn:E; [|discriminate].
  inversion H; subst. rewrite lookup_insert_eq. split; [eauto|reflexivity].
Qed.


(** C4 (amended).  For a replay attack whose window contains [t], when the
    call returns and no attack later in the registry writes the same signal
    at [t]: the buffer is not empty and the observed value of the target is
    [replay_buffer[floor(t - start_time) mod len(replay_buffer)]], whatever the
    real value is; the step [dt] of the simulation does not enter the
    index. *)
Theorem replay_observed (normal : nat -> Q -> Q) (pre post : list Attack)
    (a : Attack) (s : string) (buffer : list Q) (rng : nat) (t : Q)
    (run_id : Z) (signals : gmap string Q) (reg' : list Attack)
    (obs : gmap string Q) (rng' : nat) :
  type a = REPLAY -> writes_to a s ->
  get_list (params a) "replay_buffer" = inr buffer ->
  in_window t a = true ->
  (forall b, b ∈ post -> in_window t b = true -> ~ writes_to b s) ->
  inject_attacks normal (pre ++ a :: post) rng t run_id signals
    = (reg', inr (obs, rng')) ->
  buffer <> [] /\
  is_Some (obs !! s) /\
  obs !! s
  = buffer !! Z.to_nat (Qfloor (t - start_time a) mod Z.of_nat (length buffer)).
Proof.
  intros Hty Hs Hbuf Hw Hpost H. unfold inject_attacks in H.
  destruct (inject_loop_last_writer normal pre post a t signals signals rng
              reg' obs rng' s H Hw Hpost)
    as (att0 & rng0 & att1 & rng1 & Ht & Hobs).
  destruct (transform_replay normal a t signals att0 rng0 att1 rng1 s buffer
              Hty Hs Hbuf Ht) as (Hne & Hsome & Hval).
  rewrite Hobs. split; [exact Hne|]. split; [exact Hsome|].
  rewrite Hval, py_int_floor; [reflexivity|].
  apply in_window_true in Hw as [Hstart _]. lra.
Qed.

Lemma replay_observed_witness :
  match inject_attacks Samples.quiet ([] ++ Samples.replay :: []) 0 64 1
          Samples.signals with
  | (_, inr (obs, _)) => obs !! "flow_sensor" = Some 0.52
  | (_, inl _) => False
  end.
Proof.
  destruct (inject_attacks Samples.quiet ([] ++ Samples.replay :: []) 0 64 1
              Samples.signals) as [reg' [e|[obs rng']]] eqn:H.
  - call_returns H.
  - destruct (replay_observed Samples.quiet [] [] Samples.replay "flow_sensor"
                [0.5; 0.52; 0.48] 0 64 1 Samples.signals reg' obs rng')
      as (_ & _ & ->).
    + reflexivity.
    + reflexivity.
    + reflexivity.
    + reflexivity.
    + intros b Hb. inversion Hb.
    + exact H.
    + reflexivity.
Defined.

(** The sequence of the specification, one step per second. *)
Example replay_sequence_dt_1 :
  map (fun t =>
         match (inject_attacks Samples.quiet [Samples.replay] 0 t 1
                  Samples.signals).2 with
         | inr (obs, _) => obs !! "flow_sensor"
         | inl _ => None
         end)
      [60; 61; 62; 63; 64]
  = [Some 0.5; Some 0.52; Some 0.48; Some 0.5; Some 0.52].
Proof. vm_compute. reflexivity. Qed.

(** C4 as stated fails for a step other than 1: with [dt = 1/2], at the
    second step of the window ([t = start_time + 1/2]) the claimed index
    [floor((t - start_time) / dt) mod 3] is 1 (value 0.52), while the code
    indexes by [int(t - start_time) = 0] and returns 0.5. *)
Lemma replay_step_counterexample :
  let dt := 1 # 2 in
  let t := start_time Samples.replay + dt in
  [0.5; 0.52; 0.48] !! Z.to_nat (Qfloor ((t - start_time Samples.replay) / dt) mod 3)
    = Some 0.52 /\
  ~ 0.5 == 0.52 /\
  match (inject_attacks Samples.quiet [Samples.replay] 0 t 1 Samples.signals).2 with
  | inr (obs, _) => obs !! "flow_sensor" = Some 0.5
  | inl _ => False
  end.
Proof.
  cbv zeta. split; [vm_compute; reflexivity|].
  split; [intros H; vm_compute in H; discriminate H|].
  vm_compute. reflexivity.
Qed.




(** ** The simulation step *)

Section StepFacts.

Variables State Control CtrlState : Type.
Variable normal : nat -> Q -> Q.
Variable utcnow : nat -> Z.
Variable signals_of : State -> option (gmap string Q).
Variable controller_compute :
  CtrlState -> gmap string Q -> Q -> option (Control * CtrlState).
Variable solver_step :
  State -> gmap string Q -> Control -> Q -> Q -> option State.
Variable get_active_attacks : list Attack -> Z -> list Attack.

(** What a step that sent its frame went through. *)
Lemma step_sent (env : Env) (m m' : Machine State CtrlState) (dt : Q)
    (tm : Telemetry Control) :
  step State Control CtrlState normal utcnow signals_of controller_compute
    solver_step get_active_attacks env m dt = (m', inr tm) ->
  signals_of (sim_state (m_sim m)) = Some (tm_real tm) /\
  inject_attacks normal (m_service m) (m_rng m) (sim_t (m_sim m))
    (sim_run_id (m_sim m)) (tm_real tm)
  = (m_service m', inr (tm_observed tm, m_rng m')) /\
  controller_compute (sim_ctrl (m_sim m)) (tm_observed tm) dt
  = Some (tm_control tm, sim_ctrl (m_sim m')) /\
  solver_step (sim_state (m_sim m)) (tm_real tm) (tm_control tm)
    (sim_t (m_sim m)) dt
  = Some (sim_state (m_sim m')) /\
  tm_t tm = sim_t (m_sim m) /\
  sim_t (m_sim m') = sim_t (m_sim m) + dt.
Proof.
  unfold step, _compute_real_signals, _compute_control, _integrate.
  destruct (signals_of (sim_state (m_sim m))) as [real|] eqn:E1; [|discriminate].
  destruct (inject_attacks normal (m_service m) (m_rng m) (sim_t (m_sim m))
              (sim_run_id (m_sim m)) real) as [reg' [e|[obs rng']]] eqn:E2;
    [discriminate|].
  destruct (controller_compute (sim_ctrl (m_sim m)) obs dt) as [[u c']|] eqn:E3;
    [|discriminate].
  simpl.
  destruct (solver_step (sim_state (m_sim m)) real u (sim_t (m_sim m)) dt)
    as [state'|] eqn:E4; [|discriminate].
  destruct (negb (db_up env)); [discriminate|].
  destruct (_update_attack_states utcnow reg' (m_rows m) (m_tick m))
    as [rows' tick'].
  destruct (negb (ws_open env)); [discriminate|].
  intros [= <- <-]. simpl. auto 10.
Qed.

End StepFacts.

(** C2.  In a step that sends its frame, the control output is the
    controller's [compute] on the controller state and the observed
    (attack-injected) signals, and the next real state is the solver's step
    on the real state, the real signals, that control output, [t] and [dt];
    so two steps from the same real state and time, under any two attack
    registries, random generators, controller states and attack tables, that
    produce the same control output produce the same next real state. *)
Theorem step_real_state_through_control (State Control CtrlState : Type)
    (normal : nat -> Q -> Q) (utcnow : nat -> Z)
    (signals_of : State -> option (gmap string Q))
    (controller_compute :
       CtrlState -> gmap string Q -> Q -> option (Control * CtrlState))
    (solver_step : State -> gmap string Q -> Control -> Q -> Q -> option State)
    (get_active_attacks : list Attack -> Z -> list Attack)
    (env1 env2 : Env) (m1 m2 m1' m2' : Machine State CtrlState) (dt : Q)
    (tm1 tm2 : Telemetry Control) :
  sim_state (m_sim m1) = sim_state (m_sim m2) ->
  sim_t (m_sim m1) = sim_t (m_sim m2) ->
  step State Control CtrlState normal utcnow signals_of controller_compute
    solver_step get_active_attacks env1 m1 dt = (m1', inr tm1) ->
  step State Control CtrlState normal utcnow signals_of controller_compute
    solver_step get_active_attacks env2 m2 dt = (m2', inr tm2) ->
  (signals_of (sim_state (m_sim m1)) = Some (tm_real tm1) /\
   (inject_attacks normal (m_service m1) (m_rng m1) (sim_t (m_sim m1))
      (sim_run_id (m_sim m1)) (tm_real tm1)).2
   = inr (tm_observed tm1, m_rng m1') /\
   controller_compute (sim_ctrl (m_sim m1)) (tm_observed tm1) dt
   = Some (tm_control tm1, sim_ctrl (m_sim m1')) /\
   solver_step (sim_state (m_sim m1)) (tm_real tm1) (tm_control tm1)
     (sim_t (m_sim m1)) dt
   = Some (sim_state (m_sim m1'))) /\
  (tm_control tm1 = tm_control tm2 ->
   sim_state (m_sim m1') = sim_state (m_sim m2')).
Proof.
  intros Hst Ht H1 H2.
  apply step_sent in H1 as (Hr1 & Hi1 & Hc1 & Hs1 & _).
  apply step_sent in H2 as (Hr2 & _ & _ & Hs2 & _).
  split.
  - rewrite Hi1. auto.
  - intros Hu.
    assert (Hreal : tm_real tm1 = tm_real tm2) by congruence.
    rewrite Hst, Ht, Hreal, Hu, Hs2 in Hs1. now inversion Hs1.
Qed.

Lemma step_real_state_through_control_witness :
  match step Q Q unit Samples.quiet Samples.clock Samples.tank_signals
          Samples.on_off Samples.tank_euler Samples.listed Samples.env_up
          (Samples.tank_machine []) 0.1,
        step Q Q unit Samples.quiet Samples.clock Samples.tank_signals
          Samples.on_off Samples.tank_euler Samples.listed Samples.env_up
          (Samples.tank_machine [Samples.fdi_high]) 0.1 with
  | (m1', inr tm1), (m2', inr tm2) =>
      tm_observed tm1 !! "tank.level_sensor" = Some 8 /\
      tm_observed tm2 !! "tank.level_sensor" = Some 9.9 /\
      sim_state (m_sim m1') = sim_state (m_sim m2')
  | _, _ => False
  end.
Proof.
  assert (Hc : match step Q Q unit Samples.quiet Samples.clock
                       Samples.tank_signals Samples.on_off Samples.tank_euler
                       Samples.listed Samples.env_up (Samples.tank_machine []) 0.1,
                     step Q Q unit Samples.quiet Samples.clock
                       Samples.tank_signals Samples.on_off Samples.tank_euler
                       Samples.listed Samples.env_up
                       (Samples.tank_machine [Samples.fdi_high]) 0.1 with
               | (_, inr tm1), (_, inr tm2) =>
                   tm_observed tm1 !! "tank.level_sensor" = Some 8 /\
                   tm_observed tm2 !! "tank.level_sensor" = Some 9.9 /\
                   tm_control tm1 = tm_control tm2
               | _, _ => False
               end) by (vm_compute; auto).
  destruct (step Q Q unit Samples.quiet Samples.clock Samples.tank_signals
              Samples.on_off Samples.tank_euler Samples.listed Samples.env_up
              (Samples.tank_machine []) 0.1) as [m1' [e1|tm1]] eqn:H1;
    [contradiction|].
  destruct (step Q Q unit Samples.quiet Samples.clock Samples.tank_signals
              Samples.on_off Samples.tank_euler Samples.listed Samples.env_up
              (Samples.tank_machine [Samples.fdi_high]) 0.1)
    as [m2' [e2|tm2]] eqn:H2; [contradiction|].
  destruct Hc as (Ho1 & Ho2 & Hu).
  split; [exact Ho1|]. split; [exact Ho2|].
  exact (proj2 (step_real_state_through_control Q Q unit Samples.quiet
                  Samples.clock Samples.tank_signals Samples.on_off
                  Samples.tank_euler Samples.listed Samples.env_up Samples.env_up
                  (Samples.tank_machine []) (Samples.tank_machine [Samples.fdi_high])
                  m1' m2' 0.1 tm1 tm2 eq_refl eq_refl H1 H2) Hu).
Defined.

(** ** Registration *)

Lemma spec_validate_missing (ty : AttackType) (p : gmap string pyval) (k : string) :
  required_key ty = Some k -> p !! k = None ->
  (spec_validate_attack_params ty p).1 = false.
Proof.
  destruct ty; simpl; intros [= <-] ->; reflexivity.
Qed.

Lemma schema_rejects (r : AttackCreateRequest) :
  req_start_time r < 0 \/ (exists d, req_duration r = Some d /\ d < 0) ->
  schema_ok r = false.
Proof.
  unfold schema_ok. intros [H|(d & -> & H)].
  - assert (E : Qle_bool 0 (req_start_time r) = false).
    { apply not_true_iff_false. rewrite Qle_bool_iff. lra. }
    rewrite E. now rewrite andb_false_r.
  - assert (E : Qle_bool 0 d = false).
    { apply not_true_iff_false. rewrite Qle_bool_iff. lra. }
    rewrite E. now rewrite andb_false_r.
Qed.

Lemma create_attack_error_unchanged
    (validate : AttackType -> gmap string pyval -> bool * string)
    (new_id : Z) (uuid : string) (request : AttackCreateRequest) (user_id : Z)
    (st st' : Backend) (e : api_error) :
  create_attack validate new_id uuid request user_id st = (st', inl e) ->
  st' = st.
Proof.
  unfold create_attack.
  destruct (negb (schema_ok request)); [now intros [= <- _]|].
  destruct (List.find _ (runs st)) as [run|]; [|now intros [= <- _]].
  destruct (negb (run_owner_id run =? user_id)%Z); [now intros [= <- _]|].
  destruct (validate _ _) as [valid error].
  destruct (negb valid); [now intros [= <- _]|discriminate].
Qed.

Lemma create_attack_invalid
    (validate : AttackType -> gmap string pyval -> bool * string)
    (new_id : Z) (uuid : string) (request : AttackCreateRequest) (user_id : Z)
    (st : Backend) :
  schema_ok request = false \/
  (validate (req_attack_type request)
     (req_parameters request
      ∪ {[ "target_signal" := VStr (req_target_signal request) ]})).1 = false ->
  exists e, create_attack validate new_id uuid request user_id st = (st, inl e).
Proof.
  unfold create_attack. intros H.
  destruct (schema_ok request); simpl; [|eauto].
  destruct H as [H|H]; [discriminate|].
  destruct (List.find _ (runs st)) as [run|]; [|eauto].
  destruct (negb (run_owner_id run =? user_id)%Z); [eauto|].
  destruct (validate _ _) as [valid error]. simpl in H. subst valid. simpl. eauto.
Qed.

Lemma dict_set_elem (reg : list Attack) (a : Attack) : a ∈ dict_set reg a.
Proof.
  induction reg as [|b reg IH]; simpl; [now left|].
  destruct (String.eqb (attack_id b) (attack_id a)); [now left|now right].
Qed.

(** An attack registered through [create_attack] writes to its own
    [target_signal], unless the request carries a ["target_signal"] entry
    among its parameters (which the dict literal lets win). *)
Lemma create_attack_writes_to
    (validate : AttackType -> gmap string pyval -> bool * string)
    (new_id : Z) (uuid : string) (request : AttackCreateRequest) (user_id : Z)
    (st st' : Backend) (row : AttackRow) :
  req_parameters request !! "target_signal" = None ->
  create_attack validate new_id uuid request user_id st = (st', inr row) ->
  exists a, a ∈ service st' /\ attack_id a = uuid /\ status a = armed /\
            writes_to a (target_signal a).
Proof.
  unfold create_attack. intros Hnone.
  destruct (negb (schema_ok request)); [discriminate|].
  destruct (List.find _ (runs st)) as [run|]; [|discriminate].
  destruct (negb (run_owner_id run =? user_id)%Z); [discriminate|].
  destruct (validate _ _) as [valid error].
  destruct (negb valid); [discriminate|].
  intros [= <- _]. eexists. split; [apply dict_set_elem|]. simpl.
  split; [reflexivity|]. split; [reflexivity|].
  unfold writes_to, get_str. simpl.
  rewrite lookup_union_r by exact Hnone.
  now rewrite lookup_singleton_eq.
Qed.

(** C8 (amended).  Registration validates its input and registers nothing on
    failure: a request with a negative [start_time], a negative [duration]
    (the schema asks for [duration] absent or [>= 0]), parameters the
    validator refuses, or, with the validator of the specification, a missing
    required parameter of its kind, is answered with an error, and every
    request answered with an error leaves the attack table and the registry
    as they were. *)
Theorem registration_rejects_atomically :
  (forall (validate : AttackType -> gmap string pyval -> bool * string)
          new_id uuid request user_id st,
      req_start_time request < 0 \/
      (exists d, req_duration request = Some d /\ d < 0) \/
      (validate (req_attack_type request)
         (req_parameters request
          ∪ {[ "target_signal" := VStr (req_target_signal request) ]})).1 = false ->
      exists e, create_attack validate new_id uuid request user_id st = (st, inl e)) /\
  (forall new_id uuid request user_id st k,
      required_key (req_attack_type request) = Some k ->
      req_parameters request !! k = None ->
      exists e,
        create_attack spec_validate_attack_params new_id uuid request user_id st
        = (st, inl e)) /\
  (forall (validate : AttackType -> gmap string pyval -> bool * string)
          new_id uuid request user_id st st' e,
      create_attack validate new_id uuid request user_id st = (st', inl e) ->
      st' = st).
Proof.
  split; [|split].
  - intros validate new_id uuid request user_id st [H|[H|H]];
      apply create_attack_invalid; auto using schema_rejects.
  - intros new_id uuid request user_id st k Hk Hnone.
    apply create_attack_invalid. right.
    apply (spec_validate_missing _ _ k Hk).
    apply lookup_union_None. split; [exact Hnone|].
    apply lookup_singleton_ne.
    destruct (req_attack_type request); simpl in Hk; inversion Hk; discriminate.
  - intros. eapply create_attack_error_unchanged; eauto.
Qed.

Lemma registration_rejects_atomically_witness :
  exists e,
    create_attack spec_validate_attack_params 1 "uuid-1" Samples.request_missing
      7 Samples.backend0
    = (Samples.backend0, inl e).
Proof.
  apply (proj1 (proj2 registration_rejects_atomically) 1%Z "uuid-1"
           Samples.request_missing 7%Z Samples.backend0 "false_value").
  - reflexivity.
  - reflexivity.
Defined.

(** C8 as stated fails for [duration = 0]: the schema admits it
    ([Field(None, ge=0)]), and the request is registered with status armed in
    the table and in the registry. *)
Lemma zero_duration_registered_counterexample :
  req_duration Samples.request_zero = Some 0 /\
  match create_attack spec_validate_attack_params 1 "uuid-1"
          Samples.request_zero 7 Samples.backend0 with
  | (st', inr row) =>
      row_status row = armed /\
      length (attacks st') = 1%nat /\
      map attack_id (service st') = ["uuid-1"] /\
      map duration (service st') = [Some 0]
  | (_, inl _) => False
  end.
Proof.
  split; [reflexivity|]. vm_compute. auto.
Qed.

(** ** Removal *)

Lemma entry_le_attack_id (a a' : Attack) : entry_le a a' -> attack_id a' = attack_id a.
Proof. intros [H _]. rewrite <- H. reflexivity. Qed.

(** The calls never add an attack: an identifier absent from the registry
    stays absent. *)
Lemma inject_calls_absent (normal : nat -> Q -> Q) (reg : list Attack)
    (calls : list call) (id : string) :
  Forall (fun a => attack_id a <> id) reg ->
  Forall (fun a => attack_id a <> id) (inject_calls normal reg calls).
Proof.
  intros H. apply Forall_lookup_2. intros i a' Ha'.
  destruct (Forall2_lookup_r _ _ _ _ _ (inject_calls_entry_le normal reg calls) Ha')
    as (a & Ha & Hle).
  rewrite (entry_le_attack_id a a' Hle).
  exact (Forall_lookup_1 _ _ _ _ H Ha).
Qed.

Lemma filter_absent (reg : list Attack) (id : string) :
  Forall (fun a => attack_id a <> id)
    (List.filter (fun a => negb (String.eqb (attack_id a) id)) reg).
Proof.
  apply Forall_forall. intros a Ha.
  apply list_elem_of_In, filter_In in Ha as [_ Ha].
  apply negb_true_iff, String.eqb_neq in Ha. exact Ha.
Qed.

(** C7.  Removing a registered attack succeeds if and only if the status
    the registry holds for it is armed: for any other status the removal is
    answered with a validation error and the registry is left as it was; for
    an armed attack it succeeds, the registry then holds the other attacks
    and no entry with that identifier, and after every later sequence of
    [inject_attacks] calls there is still no such entry, so the attack never
    becomes active. *)
Theorem removal_only_while_armed (reg : list Attack) (id : string) (a : Attack) :
  List.find (fun b => String.eqb (attack_id b) id) reg = Some a ->
  ((remove_attack reg id).2 = inr tt <-> status a = armed) /\
  (status a <> armed -> remove_attack reg id = (reg, inl ValidationError)) /\
  (status a = armed ->
   exists reg',
     remove_attack reg id = (reg', inr tt) /\
     (forall b, b ∈ reg' <-> b ∈ reg /\ attack_id b <> id) /\
     forall normal calls,
       Forall (fun b => attack_id b <> id) (inject_calls normal reg' calls)).
Proof.
  intros Hfind. unfold remove_attack. rewrite Hfind.
  split; [|split].
  - case_bool_decide as Hs; simpl.
    + split; auto.
    + split; [discriminate|]. intros H. contradiction.
  - intros Hs. now rewrite bool_decide_eq_false_2.
  - intros Hs. rewrite bool_decide_eq_true_2 by exact Hs.
    eexists. split; [reflexivity|]. split.
    + intros b. rewrite list_elem_of_In, filter_In, negb_true_iff,
        String.eqb_neq, <- list_elem_of_In. reflexivity.
    + intros normal calls. apply inject_calls_absent, filter_absent.
Qed.

Lemma removal_only_while_armed_witness :
  exists reg',
    remove_attack [Samples.fdi; Samples.ramp] "fdi-1" = (reg', inr tt) /\
    (forall b, b ∈ reg' <-> b ∈ [Samples.fdi; Samples.ramp] /\ attack_id b <> "fdi-1") /\
    forall normal calls,
      Forall (fun b => attack_id b <> "fdi-1") (inject_calls normal reg' calls).
Proof.
  apply (proj2 (proj2 (removal_only_while_armed [Samples.fdi; Samples.ramp]
                         "fdi-1" Samples.fdi eq_refl))).
  reflexivity.
Defined.

(** ** The RK4 step *)

Lemma rk4_step_traced_fst (f : Q -> Q -> Q) (y t dt : Q) (log : list (Q * Q)) :
  (rk4_step_traced f y t dt log).1 = rk4_step f y t dt.
Proof. reflexivity. Qed.

(** C9.  For every derivative function [f] (a function of the numbers its
    arguments denote), state [y], time [t] and step [dt], [rk4_step] returns
    [y + (dt/6) * (k1 + 2*k2 + 2*k3 + k4)] with [k1 = f(t, y)],
    [k2 = f(t + dt/2, y + (dt/2)*k1)], [k3 = f(t + dt/2, y + (dt/2)*k2)] and
    [k4 = f(t + dt, y + dt*k3)], and it evaluates [f] exactly four times: at
    [t], at [t + dt/2] twice, and at [t + dt], with those states. *)
Theorem rk4_step_formula (f : Q -> Q -> Q) (y t dt : Q) :
  Proper (Qeq ==> Qeq ==> Qeq) f ->
  let k1 := f t y in
  let k2 := f (t + dt / 2) (y + (dt / 2) * k1) in
  let k3 := f (t + dt / 2) (y + (dt / 2) * k2) in
  let k4 := f (t + dt) (y + dt * k3) in
  rk4_step f y t dt == y + (dt / 6) * (k1 + 2 * k2 + 2 * k3 + k4) /\
  (rk4_step_traced f y t dt []).1 = rk4_step f y t dt /\
  length (rk4_step_traced f y t dt []).2 = 4%nat /\
  map fst (rk4_step_traced f y t dt []).2 = [t; t + dt / 2; t + dt / 2; t + dt] /\
  Forall2 Qeq (map snd (rk4_step_traced f y t dt []).2)
    [y; y + (dt / 2) * k1; y + (dt / 2) * k2; y + dt * k3].
Proof.
  intros Hf k1 k2 k3 k4.
  assert (E2 : f (t + dt / 2) (y + dt * k1 / 2) == k2).
  { apply Hf; [reflexivity|]. field. }
  assert (E3 : f (t + dt / 2) (y + dt * f (t + dt / 2) (y + dt * k1 / 2) / 2) == k3).
  { apply Hf; [reflexivity|]. rewrite E2. field. }
  assert (E4 : f (t + dt)
                 (y + dt * f (t + dt / 2)
                             (y + dt * f (t + dt / 2) (y + dt * k1 / 2) / 2))
               == k4).
  { apply Hf; [reflexivity|]. rewrite E3. reflexivity. }
  split; [|split; [reflexivity|split; [reflexivity|split; [reflexivity|]]]].
  - unfold rk4_step. fold k1. rewrite E4, E3, E2. reflexivity.
  - simpl. fold k1. repeat constructor.
    + field.
    + rewrite E2. field.
    + rewrite E3. reflexivity.
Qed.

Lemma rk4_step_formula_witness :
  rk4_step Samples.decay 1 0 (1 # 10) == 3652721 # 3840000.
Proof.
  assert (Hf : Proper (Qeq ==> Qeq ==> Qeq) Samples.decay).
  { intros t1 t2 _ y1 y2 Hy. unfold Samples.decay. now rewrite Hy. }
  destruct (rk4_step_formula Samples.decay 1 0 (1 # 10) Hf) as [H _].
  rewrite H. reflexivity.
Defined.

(** * Further properties of the code *)

(** ** Calls outside every window, and the constant transforms *)

Lemma inject_loop_idle (normal : nat -> Q -> Q) (reg : list Attack) t signals
    attacked rng :
  (forall a, a ∈ reg -> in_window t a = false) ->
  (inject_loop normal t signals reg attacked rng).2 = inr (attacked, rng).
Proof.
  induction reg as [|a reg IH]; intros H; [reflexivity|].
  rewrite inject_loop_cons, (H a) by now left.
  assert (IH' := IH (fun b Hb => H b (list_elem_of_further _ _ _ Hb))).
  destruct (inject_loop normal t signals reg attacked rng). exact IH'.
Qed.

(** X1.  A call at a time that lies in no attack's window returns the real
    signals as they are and draws no random number, whatever the registered
    attacks hold in their parameters: a malformed attack cannot make a call
    fail outside its window. *)
Theorem inject_attacks_idle (normal : nat -> Q -> Q) (reg : list Attack)
    (rng : nat) (t : Q) (run_id : Z) (signals : gmap string Q) :
  (forall a, a ∈ reg -> in_window t a = false) ->
  (inject_attacks normal reg rng t run_id signals).2 = inr (signals, rng).
Proof. apply inject_loop_idle. Qed.

Lemma inject_attacks_idle_witness :
  (inject_attacks Samples.quiet
     [Samples.fdi; MoreSamples.replay_empty; MoreSamples.ramp_unknown] 0 5 1
     Samples.signals).2
  = inr (Samples.signals, 0%nat).
Proof.
  apply (inject_attacks_idle Samples.quiet
           [Samples.fdi; MoreSamples.replay_empty; MoreSamples.ramp_unknown]
           0 5 1 Samples.signals).
  intros a Ha. apply list_elem_of_In in Ha. simpl in Ha.
  destruct Ha as [<-|[<-|[<-|[]]]]; reflexivity.
Defined.

Lemma transform_dos (normal : nat -> Q -> Q) (a : Attack) t signals att0 rng0
    att1 rng1 s :
  type a = DOS -> writes_to a s ->
  transform normal a t signals att0 rng0 = inr (att1, rng1) ->
  att1 !! s
  = Some (match params a !! "blocked_value" with
          | Some (VNum blocked_value) => blocked_value
          | _ => 0
          end).
Proof.
  unfold transform, writes_to. intros -> -> H.
  destruct (params a !! "blocked_value") as [[b| |]|]; inversion H; subst;
    apply lookup_insert_eq.
Qed.

Lemma transform_fdi (normal : nat -> Q -> Q) (a : Attack) t signals att0 rng0
    att1 rng1 s :
  type a = FALSE_DATA -> writes_to a s ->
  transform normal a t signals att0 rng0 = inr (att1, rng1) ->
  exists false_value,
    params a !! "false_value" = Some (VNum false_value) /\
    att1 !! s = Some false_value.
Proof.
  unfold transform, writes_to, get_num. intros -> -> H.
  destruct (params a !! "false_value") as [[v| |]|]; inversion H; subst.
  exists v. split; [reflexivity|apply lookup_insert_eq].
Qed.

(** X2.  A denial-of-service attack whose window contains [t] makes the
    observed value of its target [blocked_value], or [0.0] when the parameter
    is absent, whether or not the real signals contain the target (when the
    call returns and no attack registered later writes the same signal). *)
Theorem dos_observed (normal : nat -> Q -> Q) (pre post : list Attack)
    (a : Attack) (s : string) (rng : nat) (t : Q) (run_id : Z)
    (signals : gmap string Q) (reg' : list Attack) (obs : gmap string Q)
    (rng' : nat) :
  type a = DOS -> writes_to a s -> in_window t a = true ->
  (forall b, b ∈ post -> in_window t b = true -> ~ writes_to b s) ->
  inject_attacks normal (pre ++ a :: post) rng t run_id signals
    = (reg', inr (obs, rng')) ->
  obs !! s
  = Some (match params a !! "blocked_value" with
          | Some (VNum blocked_value) => blocked_value
          | _ => 0
          end).
Proof.
  intros Hty Hs Hw Hpost H. unfold inject_attacks in H.
  destruct (inject_loop_last_writer normal pre post a t signals signals rng
              reg' obs rng' s H Hw Hpost)
    as (att0 & rng0 & att1 & rng1 & Ht & ->).
  eapply transform_dos; eauto.
Qed.

Lemma dos_observed_witness :
  match inject_attacks Samples.quiet ([Samples.fdi] ++ MoreSamples.dos :: [])
          0 30 1 Samples.signals with
  | (_, inr (obs, _)) => obs !! "tank.level_sensor" = Some 0
  | (_, inl _) => False
  end.
Proof.
  destruct (inject_attacks Samples.quiet ([Samples.fdi] ++ MoreSamples.dos :: [])
              0 30 1 Samples.signals) as [reg' [e|[obs rng']]] eqn:H.
  - call_returns H.
  - rewrite (dos_observed Samples.quiet [Samples.fdi] [] MoreSamples.dos
               "tank.level_sensor" 0 30 1 Samples.signals reg' obs rng'
               eq_refl eq_refl eq_refl).
    + reflexivity.
    + intros b Hb. inversion Hb.
    + exact H.
Defined.

(** X3.  A false-data-injection attack whose window contains [t] makes the
    observed value of its target the [false_value] parameter, whatever the
    real signals are (when the call returns and no attack registered later
    writes the same signal). *)
Theorem fdi_observed (normal : nat -> Q -> Q) (pre post : list Attack)
    (a : Attack) (s : string) (rng : nat) (t : Q) (run_id : Z)
    (signals : gmap string Q) (reg' : list Attack) (obs : gmap string Q)
    (rng' : nat) :
  type a = FALSE_DATA -> writes_to a s -> in_window t a = true ->
  (forall b, b ∈ post -> in_window t b = true -> ~ writes_to b s) ->
  inject_attacks normal (pre ++ a :: post) rng t run_id signals
    = (reg', inr (obs, rng')) ->
  exists false_value,
    params a !! "false_value" = Some (VNum false_value) /\
    obs !! s = Some false_value.
Proof.
  intros Hty Hs Hw Hpost H. unfold inject_attacks in H.
  destruct (inject_loop_last_writer normal pre post a t signals signals rng
              reg' obs rng' s H Hw Hpost)
    as (att0 & rng0 & att1 & rng1 & Ht & ->).
  eapply transform_fdi; eauto.
Qed.

Lemma fdi_observed_witness :
  match inject_attacks Samples.quiet ([] ++ Samples.fdi :: [Samples.ramp])
          0 20 1 Samples.signals with
  | (_, inr (obs, _)) =>
      exists v, params Samples.fdi !! "false_value" = Some (VNum v) /\
                obs !! "tank.level_sensor" = Some v
  | (_, inl _) => False
  end.
Proof.
  destruct (inject_attacks Samples.quiet ([] ++ Samples.fdi :: [Samples.ramp])
              0 20 1 Samples.signals) as [reg' [e|[obs rng']]] eqn:H.
  - call_returns H.
  - apply (fdi_observed Samples.quiet [] [Samples.ramp] Samples.fdi
             "tank.level_sensor" 0 20 1 Samples.signals reg' obs rng'
             eq_refl eq_refl eq_refl).
    + intros b Hb Hw. apply list_elem_of_In in Hb. simpl in Hb.
      destruct Hb as [<-|[]]. discriminate Hw.
    + exact H.
Defined.

(** ** The noise transform and the random generator *)





(** ** Calls that raise *)

Lemma inject_attacks_raise (normal : nat -> Q -> Q) (pre post : list Attack)
    (a : Attack) rng t run_id signals pre' att0 rng0 e :
  inject_attacks normal pre rng t run_id signals = (pre', inr (att0, rng0)) ->
  in_window t a = true ->
  transform normal a t signals att0 rng0 = inl e ->
  inject_attacks normal (pre ++ a :: post) rng t run_id signals
  = (pre' ++ (if bool_decide (status a = armed) then set_status a active else a)
          :: post,
     inl e).
Proof.
  unfold inject_attacks. intros Hpre Hw Ht.
  rewrite inject_loop_app, Hpre, inject_loop_cons, Hw, Ht.
  now rewrite (advance_inside t a Hw).
Qed.

(** X5.  When the attacks registered before [a] are processed without error
    and the transform of [a], whose window contains [t], raises, the call
    raises that exception; [a] has already been marked active if it was
    armed, and the attacks registered after [a] are left untouched (their
    status is not advanced by this call). *)
Theorem raising_call_keeps_status_write (normal : nat -> Q -> Q)
    (pre post : list Attack) (a : Attack) (rng : nat) (t : Q) (run_id : Z)
    (signals : gmap string Q) (pre' : list Attack) (att0 : gmap string Q)
    (rng0 : nat) (e : pyerr) :
  inject_attacks normal pre rng t run_id signals = (pre', inr (att0, rng0)) ->
  in_window t a = true ->
  transform normal a t signals att0 rng0 = inl e ->
  inject_attacks normal (pre ++ a :: post) rng t run_id signals
  = (pre' ++ (if bool_decide (status a = armed) then set_status a active else a)
          :: post,
     inl e).
Proof. apply inject_attacks_raise. Qed.

Lemma raising_call_keeps_status_write_witness :
  let r := inject_attacks Samples.quiet
             ([] ++ MoreSamples.replay_empty :: [Samples.replay]) 0 70 1
             Samples.signals in
  r.2 = inl ZeroDivisionError /\ map status r.1 = [active; armed].
Proof.
  cbv zeta.
  rewrite (raising_call_keeps_status_write Samples.quiet [] [Samples.replay]
             MoreSamples.replay_empty 0 70 1 Samples.signals [] Samples.signals
             0 ZeroDivisionError eq_refl eq_refl eq_refl).
  split; reflexivity.
Defined.

(** X6.  A replay attack registered with an empty buffer makes every call
    in its window raise [ZeroDivisionError] (when the attacks registered
    before it are processed without error). *)
Theorem replay_empty_buffer_raises (normal : nat -> Q -> Q)
    (pre post : list Attack) (a : Attack) (s : string) (rng : nat) (t : Q)
    (run_id : Z) (signals : gmap string Q) (pre' : list Attack)
    (att0 : gmap string Q) (rng0 : nat) :
  type a = REPLAY -> writes_to a s ->
  get_list (params a) "replay_buffer" = inr [] ->
  in_window t a = true ->
  inject_attacks normal pre rng t run_id signals = (pre', inr (att0, rng0)) ->
  (inject_attacks normal (pre ++ a :: post) rng t run_id signals).2
  = inl ZeroDivisionError.
Proof.
  intros Hty Hs Hbuf Hw Hpre.
  rewrite (inject_attacks_raise normal pre post a rng t run_id signals pre' att0
             rng0 ZeroDivisionError Hpre Hw); [reflexivity|].
  unfold transform. unfold writes_to in Hs. now rewrite Hty, Hs, Hbuf.
Qed.

Lemma replay_empty_buffer_raises_witness :
  (inject_attacks Samples.quiet
     ([Samples.fdi] ++ MoreSamples.replay_empty :: []) 0 60 1 Samples.signals).2
  = inl ZeroDivisionError.
Proof.
  apply (replay_empty_buffer_raises Samples.quiet [Samples.fdi] []
           MoreSamples.replay_empty "flow_sensor" 0 60 1 Samples.signals
           [Samples.fdi] Samples.signals 0 eq_refl eq_refl eq_refl eq_refl).
  reflexivity.
Defined.

(** X7.  A ramp or noise attack (with a non-negative [noise_std]) whose
    target is not among the real signals makes every call in its window raise
    [KeyError] on the target (when the attacks registered before it are
    processed without error). *)
Theorem unknown_target_raises (normal : nat -> Q -> Q)
    (pre post : list Attack) (a : Attack) (s : string) (rng : nat) (t : Q)
    (run_id : Z) (signals : gmap string Q) (pre' : list Attack)
    (att0 : gmap string Q) (rng0 : nat) :
  writes_to a s -> signals !! s = None ->
  (type a = RAMP /\ (exists r, get_num (params a) "rate" = inr r)) \/
  (type a = RANDOM_NOISE /\
   (exists sd, get_num (params a) "noise_std" = inr sd /\ 0 <= sd)) ->
  in_window t a = true ->
  inject_attacks normal pre rng t run_id signals = (pre', inr (att0, rng0)) ->
  (inject_attacks normal (pre ++ a :: post) rng t run_id signals).2
  = inl (KeyError s).
Proof.
  intros Hs Hnone Hty Hw Hpre.
  rewrite (inject_attacks_raise normal pre post a rng t run_id signals pre' att0
             rng0 (KeyError s) Hpre Hw); [reflexivity|].
  unfold transform. unfold writes_to in Hs.
  destruct Hty as [[Hty (r & Hr)]|[Hty (sd & Hsd & Hpos)]];
    rewrite Hty, Hs; [rewrite Hr|rewrite Hsd]; rewrite ?Hnone; [reflexivity|].
  apply Qltb_ge in Hpos. now rewrite Hpos.
Qed.

Lemma unknown_target_raises_witness :
  (inject_attacks Samples.quiet
     ([] ++ MoreSamples.ramp_unknown :: []) 0 120 1 Samples.signals).2
  = inl (KeyError "pressure_sensor").
Proof.
  apply (unknown_target_raises Samples.quiet [] [] MoreSamples.ramp_unknown
           "pressure_sensor" 0 120 1 Samples.signals [] Samples.signals 0).
  - reflexivity.
  - reflexivity.
  - left. split; [reflexivity|]. exists 0.1. reflexivity.
  - reflexivity.
  - reflexivity.
Defined.

(** ** Open-ended attacks and the end of the life-cycle *)

Lemma past_window_falsy (t : Q) (a : Attack) :
  truthy (duration a) = false -> past_window t a = false.
Proof.
  unfold past_window. destruct (duration a) as [d|]; [|reflexivity].
  intros ->. reflexivity.
Qed.

Lemma advance_falsy_not_completed (t : Q) (a : Attack) :
  truthy (duration a) = false -> status a <> completed ->
  status (advance t a) <> completed.
Proof.
  intros Hd Hs. unfold advance. rewrite (past_window_falsy t a Hd).
  destruct (Qltb t (start_time a)); [exact Hs|].
  destruct (bool_decide (status a = armed) && Qle_bool (start_time a) t);
    [discriminate|exact Hs].
Qed.

(** X8.  An attack registered without a duration, or with a duration of
    [0.0], is in its window at every [t >= start_time], and no sequence of
    [inject_attacks] calls ever marks it completed. *)
Theorem open_ended_never_completes (normal : nat -> Q -> Q)
    (pre post : list Attack) (a : Attack) (calls : list call) :
  truthy (duration a) = false -> status a <> completed ->
  (forall t, in_window t a = true <-> start_time a <= t) /\
  exists pre' a' post',
    inject_calls normal (pre ++ a :: post) calls = pre' ++ a' :: post' /\
    length pre' = length pre /\
    set_status a' (status a) = a /\
    status a' <> completed.
Proof.
  intros Hd Hs. split.
  - intros t. unfold in_window.
    rewrite (past_window_falsy t a Hd), andb_true_r, negb_true_iff.
    apply Qltb_ge.
  - revert pre post a Hd Hs.
    induction calls as [|c calls IH]; intros pre post a Hd Hs.
    + exists pre, a, post. repeat split; [now destruct a|exact Hs].
    + simpl.
      destruct (Forall2_entry_at _ pre post a _
                  (inject_loop_entries normal (pre ++ a :: post) (call_t c)
                     (call_signals c) (call_signals c) (call_rng c)))
        as (pre1 & a1 & post1 & Heq & Hlen1 & Ha1).
      unfold inject_attacks. rewrite Heq.
      assert (H1 : set_status a1 (status a) = a /\ status a1 <> completed
                   /\ truthy (duration a1) = false).
      { destruct Ha1 as [->| ->].
        - split; [now destruct a|auto].
        - split; [apply advance_set_status|].
          split; [now apply advance_falsy_not_completed|].
          destruct (advance_fields (call_t c) a) as (_ & _ & _ & _ & -> & _).
          exact Hd. }
      destruct H1 as (Hset1 & Hs1 & Hd1).
      destruct (IH pre1 post1 a1 Hd1 Hs1)
        as (pre' & a' & post' & Heq' & Hlen' & Hset' & Hs').
      exists pre', a', post'. split; [exact Heq'|]. split; [congruence|].
      split; [|exact Hs'].
      rewrite <- Hset1 at 2. rewrite <- Hset'. reflexivity.
Qed.

Lemma open_ended_never_completes_witness :
  (forall t, in_window t Samples.fdi_zero = true <-> 10 <= t) /\
  exists pre' a' post',
    inject_calls Samples.quiet ([] ++ Samples.fdi_zero :: [])
      [mkCall 0 11 1 Samples.signals; mkCall 0 1000 1 Samples.signals;
       mkCall 0 5 1 Samples.signals]
    = pre' ++ a' :: post' /\
    length pre' = 0%nat /\
    set_status a' armed = Samples.fdi_zero /\
    status a' <> completed.
Proof.
  apply (open_ended_never_completes Samples.quiet [] [] Samples.fdi_zero
           [mkCall 0 11 1 Samples.signals; mkCall 0 1000 1 Samples.signals;
            mkCall 0 5 1 Samples.signals]).
  - reflexivity.
  - discriminate.
Defined.

(** X9.  An armed or active attack with a finite, strictly positive duration
    that is met by a returning call inside its window and then by a
    returning call after the end of its window is completed, with every
    other field unchanged. *)
Theorem window_then_past_completes (normal : nat -> Q -> Q)
    (pre post : list Attack) (a : Attack) (d : Q)
    (rng1 rng2 : nat) (t1 t2 : Q) (run_id : Z) (signals1 signals2 : gmap string Q)
    (reg1 reg2 : list Attack) (r1 r2 : gmap string Q * nat) :
  duration a = Some d -> 0 < d ->
  status a = armed \/ status a = active ->
  start_time a <= t1 /\ t1 <= start_time a + d ->
  start_time a + d < t2 ->
  inject_attacks normal (pre ++ a :: post) rng1 t1 run_id signals1 = (reg1, inr r1) ->
  inject_attacks normal reg1 rng2 t2 run_id signals2 = (reg2, inr r2) ->
  reg2 !! length pre = Some (set_status a completed).
Proof.
  intros Hd Hpos Hs Hin Hout H1 H2.
  unfold inject_attacks in H1, H2.
  apply inject_loop_ok_entries in H1. apply inject_loop_ok_entries in H2.
  subst reg1 reg2. rewrite !map_app. simpl.
  rewrite lookup_app_r by (rewrite !length_map; lia).
  rewrite !length_map, Nat.sub_diag. simpl. f_equal.
  assert (Hnz : ~ d == 0) by lra.
  assert (Hw : in_window t1 a = true) by now apply (in_window_finite t1 d a Hd Hnz).
  rewrite (advance_inside t1 a Hw).
  assert (Hact : forall b, status b = active -> duration b = Some d ->
                           start_time b = start_time a ->
                           advance t2 b = set_status b completed).
  { intros b Hb Hdb Hsb. rewrite advance_after.
    - now rewrite bool_decide_eq_true_2.
    - rewrite Hsb. lra.
    - apply past_window_true. exists d. rewrite Hsb. auto. }
  destruct Hs as [Hs|Hs].
  - rewrite bool_decide_eq_true_2 by exact Hs.
    rewrite Hact; [reflexivity|reflexivity|exact Hd|reflexivity].
  - rewrite bool_decide_eq_false_2 by (rewrite Hs; discriminate).
    now rewrite Hact.
Qed.

Lemma window_then_past_completes_witness :
  (inject_attacks Samples.quiet
     (inject_attacks Samples.quiet ([] ++ Samples.fdi :: [Samples.ramp]) 0 12 1
        Samples.signals).1
     0 31 1 Samples.signals).1 !! 0%nat
  = Some (set_status Samples.fdi completed).
Proof.
  destruct (inject_attacks Samples.quiet ([] ++ Samples.fdi :: [Samples.ramp])
              0 12 1 Samples.signals) as [reg1 [e|r1]] eqn:H1;
    [call_returns H1|].
  simpl.
  destruct (inject_attacks Samples.quiet reg1 0 31 1 Samples.signals)
    as [reg2 [e|r2]] eqn:H2.
  - exfalso.
    assert (Hs : match snd (inject_attacks Samples.quiet
                              (fst (inject_attacks Samples.quiet
                                      ([] ++ Samples.fdi :: [Samples.ramp]) 0 12 1
                                      Samples.signals))
                              0 31 1 Samples.signals) with
                 | inl _ => false | inr _ => true end = true)
      by (vm_compute; reflexivity).
    rewrite H1 in Hs. simpl in Hs. rewrite H2 in Hs. discriminate Hs.
  - simpl.
    apply (window_then_past_completes Samples.quiet [] [Samples.ramp] Samples.fdi
             20 0 0 12 31 1 Samples.signals Samples.signals reg1 reg2 r1 r2).
    + reflexivity.
    + reflexivity.
    + left. reflexivity.
    + split; discriminate.
    + reflexivity.
    + exact H1.
    + exact H2.
Defined.

(** ** The registry as a dictionary *)

Lemma dict_set_ids (reg : list Attack) (a : Attack) :
  map attack_id (dict_set reg a)
  = if bool_decide (attack_id a ∈ map attack_id reg)
    then map attack_id reg
    else map attack_id reg ++ [attack_id a].
Proof.
  induction reg as [|b reg IH]; simpl.
  - reflexivity.
  - destruct (String.eqb (attack_id b) (attack_id a)) eqn:E.
    + apply String.eqb_eq in E. simpl. rewrite E.
      rewrite bool_decide_eq_true_2; [reflexivity|now left].
    + apply String.eqb_neq in E. simpl. rewrite IH.
      destruct (bool_decide (attack_id a ∈ map attack_id reg)) eqn:D.
      * apply bool_decide_eq_true in D.
        rewrite bool_decide_eq_true_2; [reflexivity|now right].
      * apply bool_decide_eq_false in D.
        rewrite bool_decide_eq_false_2; [reflexivity|].
        intros H. apply elem_of_cons in H as [H|H]; [congruence|contradiction].
Qed.

Lemma dict_set_elem_inv (reg : list Attack) (a b : Attack) :
  b ∈ dict_set reg a -> b = a \/ b ∈ reg.
Proof.
  induction reg as [|c reg IH]; simpl.
  - intros H. apply list_elem_of_singleton in H. auto.
  - destruct (String.eqb (attack_id c) (attack_id a)).
    + intros H. apply elem_of_cons in H as [H|H]; [auto|].
      right. now right.
    + intros H. apply elem_of_cons in H as [->|H]; [right; now left|].
      destruct (IH H) as [?|?]; [auto|right; now right].
Qed.

Lemma dict_set_elem_other (reg : list Attack) (a b : Attack) :
  b ∈ reg -> attack_id b <> attack_id a -> b ∈ dict_set reg a.
Proof.
  induction reg as [|c reg IH]; simpl; intros H Hne; [inversion H|].
  apply elem_of_cons in H as [->|H].
  - apply String.eqb_neq in Hne. rewrite Hne. now left.
  - destruct (String.eqb (attack_id c) (attack_id a)); right; auto.
Qed.

Lemma dict_set_replaces (reg : list Attack) (a b : Attack) :
  NoDup (map attack_id reg) ->
  b ∈ dict_set reg a -> attack_id b = attack_id a -> b = a.
Proof.
  induction reg as [|c reg IH]; simpl; intros Hnd H Hid.
  - now apply list_elem_of_singleton in H.
  - apply NoDup_cons in Hnd as [Hc Hnd].
    destruct (String.eqb (attack_id c) (attack_id a)) eqn:E.
    + apply String.eqb_eq in E.
      apply elem_of_cons in H as [H|H]; [exact H|].
      exfalso. apply Hc. rewrite E, <- Hid.
      apply list_elem_of_fmap. eauto.
    + apply String.eqb_neq in E.
      apply elem_of_cons in H as [->|H]; [congruence|]. auto.
Qed.

(** X10.  [register_attack] keeps the registry a dictionary: the order of
    the identifiers already registered is kept, a new identifier goes to the
    end (so it is applied last by [inject_attacks]), a known identifier keeps
    its place, and identifiers stay distinct. *)
Theorem register_attack_order (reg : list Attack) (id : string)
    (ty : AttackType) (target : string) (start : Q) (d : option Q)
    (p : gmap string pyval) :
  map attack_id (register_attack reg id ty target start d p)
  = (if bool_decide (id ∈ map attack_id reg)
     then map attack_id reg
     else map attack_id reg ++ [id]) /\
  (NoDup (map attack_id reg) ->
   NoDup (map attack_id (register_attack reg id ty target start d p))).
Proof.
  unfold register_attack. rewrite dict_set_ids. simpl. split; [reflexivity|].
  intros Hnd. case_bool_decide as Hin; [exact Hnd|].
  apply NoDup_app. split; [exact Hnd|]. split.
  - intros x Hx Hx'. apply list_elem_of_singleton in Hx'. congruence.
  - apply NoDup_singleton.
Qed.

Lemma register_attack_order_witness :
  NoDup (map attack_id
           (register_attack [Samples.fdi; Samples.ramp] "fdi-1" DOS "x" 0 None ∅)).
Proof.
  apply (proj2 (register_attack_order [Samples.fdi; Samples.ramp] "fdi-1" DOS "x"
                  0 None ∅)).
  simpl. apply NoDup_cons. split.
  - intros H. apply list_elem_of_singleton in H. discriminate H.
  - apply NoDup_singleton.
Defined.

(** X11.  After [register_attack] on a registry with distinct identifiers,
    the entries are the new attack, with status armed, and the former entries
    with another identifier: an attack registered again under its identifier
    replaces the former entry, whatever status that one had reached. *)
Theorem register_attack_entries (reg : list Attack) (id : string)
    (ty : AttackType) (target : string) (start : Q) (d : option Q)
    (p : gmap string pyval) (b : Attack) :
  NoDup (map attack_id reg) ->
  (b ∈ register_attack reg id ty target start d p <->
   b = mkAttack id ty target start d p armed \/ (b ∈ reg /\ attack_id b <> id)).
Proof.
  intros Hnd. unfold register_attack. split.
  - intros H.
    destruct (String.eqb_spec (attack_id b) id) as [E|E].
    + left. apply (dict_set_replaces reg _ b Hnd H). exact E.
    + right. split; [|exact E].
      destruct (dict_set_elem_inv _ _ _ H) as [->|?]; [|assumption].
      exfalso. now apply E.
  - intros [->|[Hb Hne]].
    + apply dict_set_elem.
    + now apply dict_set_elem_other.
Qed.

Lemma register_attack_entries_witness :
  set_status Samples.ramp completed
    ∈ register_attack [set_status Samples.fdi completed;
                       set_status Samples.ramp completed]
        "fdi-1" FALSE_DATA "tank.level_sensor" 10 (Some 20) (params Samples.fdi)
  /\ ~ set_status Samples.fdi completed
        ∈ register_attack [set_status Samples.fdi completed;
                           set_status Samples.ramp completed]
            "fdi-1" FALSE_DATA "tank.level_sensor" 10 (Some 20)
            (params Samples.fdi).
Proof.
  assert (Hnd : NoDup (map attack_id [set_status Samples.fdi completed;
                                      set_status Samples.ramp completed])).
  { simpl. apply NoDup_cons. split.
    - intros H. apply list_elem_of_singleton in H. discriminate H.
    - apply NoDup_singleton. }
  split.
  - apply (register_attack_entries _ "fdi-1" FALSE_DATA "tank.level_sensor" 10
             (Some 20) (params Samples.fdi) _ Hnd).
    right. split; [right; left|discriminate].
  - intros H.
    apply (register_attack_entries _ "fdi-1" FALSE_DATA "tank.level_sensor" 10
             (Some 20) (params Samples.fdi) _ Hnd) in H.
    destruct H as [H|[_ H]]; [discriminate H|now apply H].
Defined.

(** ** Successful registration *)

(** X12.  [create_attack] registers an attack only for a request that
    satisfies the schema, on a run that exists and belongs to the user, and
    with parameters the validator accepts; it then appends exactly one row,
    with status armed and the identifiers the database assigned, and
    registers the attack in the service with the merged parameters. *)
Theorem create_attack_success
    (validate : AttackType -> gmap string pyval -> bool * string)
    (new_id : Z) (uuid : string) (request : AttackCreateRequest) (user_id : Z)
    (st st' : Backend) (row : AttackRow) :
  create_attack validate new_id uuid request user_id st = (st', inr row) ->
  schema_ok request = true /\
  (exists run,
     List.find (fun r => (run_pk r =? req_run_id request)%Z) (runs st) = Some run /\
     run_owner_id run = user_id) /\
  (validate (req_attack_type request)
     (req_parameters request
      ∪ {[ "target_signal" := VStr (req_target_signal request) ]})).1 = true /\
  runs st' = runs st /\
  attacks st' = attacks st ++ [row] /\
  row_id row = new_id /\ row_attack_id row = uuid /\ row_status row = armed /\
  service st'
  = register_attack (service st) uuid (req_attack_type request)
      (req_target_signal request) (req_start_time request)
      (req_duration request)
      (req_parameters request
       ∪ {[ "target_signal" := VStr (req_target_signal request) ]}).
Proof.
  unfold create_attack.
  destruct (schema_ok request); [|discriminate]. simpl.
  destruct (List.find _ (runs st)) as [run|]; [|discriminate].
  destruct (run_owner_id run =? user_id)%Z eqn:Ho; [|discriminate]. simpl.
  destruct (validate _ _) as [valid error].
  destruct valid; [|discriminate]. simpl.
  intros [= <- <-]. simpl.
  apply Z.eqb_eq in Ho. repeat split; eauto.
Qed.

Lemma create_attack_success_witness :
  match create_attack spec_validate_attack_params 5 "uuid-5"
          MoreSamples.request_ok 7 Samples.backend0 with
  | (st', inr row) =>
      attacks st' = [row] /\ row_status row = armed /\
      map attack_id (service st') = ["uuid-5"]
  | (_, inl _) => False
  end.
Proof.
  destruct (create_attack spec_validate_attack_params 5 "uuid-5"
              MoreSamples.request_ok 7 Samples.backend0)
    as [st' [e|row]] eqn:H.
  - vm_compute in H. discriminate H.
  - destruct (create_attack_success spec_validate_attack_params 5 "uuid-5"
                MoreSamples.request_ok 7 Samples.backend0 st' row H)
      as (_ & _ & _ & _ & Hrows & _ & _ & Hst & Hsvc).
    split; [exact Hrows|]. split; [exact Hst|]. rewrite Hsvc. reflexivity.
Defined.

(** X13.  The merged parameters are built as [{"target_signal":
    request.target_signal, **request.parameters}], so a ["target_signal"]
    entry among the request's parameters wins: the attack is registered (and
    stored) under the request's [target_signal], but [inject_attacks] will
    write the signal named in the parameters. *)
Theorem create_attack_parameter_overrides_target
    (validate : AttackType -> gmap string pyval -> bool * string)
    (new_id : Z) (uuid : string) (request : AttackCreateRequest) (user_id : Z)
    (st st' : Backend) (row : AttackRow) (s' : string) :
  req_parameters request !! "target_signal" = Some (VStr s') ->
  create_attack validate new_id uuid request user_id st = (st', inr row) ->
  row_target_component row = req_target_signal request /\
  exists a,
    a ∈ service st' /\ attack_id a = uuid /\
    target_signal a = req_target_signal request /\
    writes_to a s'.
Proof.
  unfold create_attack. intros Hp.
  destruct (negb (schema_ok request)); [discriminate|].
  destruct (List.find _ (runs st)) as [run|]; [|discriminate].
  destruct (negb (run_owner_id run =? user_id)%Z); [discriminate|].
  destruct (validate _ _) as [valid error].
  destruct (negb valid); [discriminate|].
  intros [= <- <-]. simpl. split; [reflexivity|].
  eexists. split; [apply dict_set_elem|]. simpl.
  split; [reflexivity|]. split; [reflexivity|].
  unfold writes_to, get_str. simpl.
  now rewrite (lookup_union_Some_l _ _ _ _ Hp).
Qed.

Lemma create_attack_parameter_overrides_target_witness :
  match create_attack spec_validate_attack_params 5 "uuid-5"
          MoreSamples.request_override 7 Samples.backend0 with
  | (st', inr row) =>
      row_target_component row = "tank.level_sensor" /\
      exists a, a ∈ service st' /\ attack_id a = "uuid-5" /\
                target_signal a = "tank.level_sensor" /\
                writes_to a "flow_sensor"
  | (_, inl _) => False
  end.
Proof.
  destruct (create_attack spec_validate_attack_params 5 "uuid-5"
              MoreSamples.request_override 7 Samples.backend0)
    as [st' [e|row]] eqn:H.
  - vm_compute in H. discriminate H.
  - apply (create_attack_parameter_overrides_target spec_validate_attack_params
             5 "uuid-5" MoreSamples.request_override 7 Samples.backend0 st' row
             "flow_sensor" eq_refl H).
Defined.

(** ** Synchronising and loading the attack table *)



















Lemma fold_register_armed (target_signal_of : AttackRow -> string)
    (rows : list AttackRow) (reg : list Attack) (id : string) :
  (exists a, a ∈ reg /\ attack_id a = id /\ status a = armed) \/
  (exists row, row ∈ rows /\ row_attack_id row = id) ->
  exists a,
    a ∈ fold_left
          (fun reg attack =>
             register_attack reg (row_attack_id attack) (row_attack_type attack)
               (target_signal_of attack) (row_trigger_time attack)
               (row_duration attack)
               (row_parameters attack
                ∪ {[ "target_signal" := VStr (target_signal_of attack) ]}))
          rows reg /\
    attack_id a = id /\ status a = armed.
Proof.
  revert reg. induction rows as [|row0 rows IH]; intros reg H; simpl.
  - destruct H as [H|(row & Hrow & _)]; [exact H|inversion Hrow].
  - apply IH.
    destruct (String.eqb_spec (row_attack_id row0) id) as [E|E].
    + left. eexists. split; [apply dict_set_elem|]. simpl. auto.
    + destruct H as [(a & Ha & Hid & Hs)|(row & Hrow & Hid)].
      * left. exists a. split; [|auto].
        apply dict_set_elem_other; [exact Ha|]. simpl. congruence.
      * right. exists row. split; [|exact Hid].
        apply elem_of_cons in Hrow as [->|Hrow]; [contradiction|exact Hrow].
Qed.

(** X15.  [_load_attacks_from_db] leaves the tables as they are, and after
    it every row of the run whose status is armed or active has an entry in
    the registry with status armed: an attack that was active when the
    simulator is built starts again as armed. *)
Theorem load_attacks_rearms (target_signal_of : AttackRow -> string)
    (run_id : Z) (st : Backend) (row : AttackRow) :
  row ∈ attacks st ->
  row_simulation_run_id row = run_id ->
  row_status row = armed \/ row_status row = active ->
  runs (_load_attacks_from_db target_signal_of run_id st) = runs st /\
  attacks (_load_attacks_from_db target_signal_of run_id st) = attacks st /\
  exists a,
    a ∈ service (_load_attacks_from_db target_signal_of run_id st) /\
    attack_id a = row_attack_id row /\ status a = armed.
Proof.
  intros Hrow Hrun Hs. split; [reflexivity|]. split; [reflexivity|].
  unfold _load_attacks_from_db. simpl.
  apply fold_register_armed. right. exists row. split; [|reflexivity].
  apply list_elem_of_In, filter_In. split; [now apply list_elem_of_In|].
  apply andb_true_iff. split; [now apply Z.eqb_eq|].
  apply orb_true_iff. rewrite !bool_decide_eq_true. exact Hs.
Qed.

Lemma load_attacks_rearms_witness :
  exists a,
    a ∈ service (_load_attacks_from_db row_target_component 1
                   (Samples.backend_with active)) /\
    attack_id a = "fdi-1" /\ status a = armed.
Proof.
  destruct (load_attacks_rearms row_target_component 1
              (Samples.backend_with active) (Samples.row_with active))
    as (_ & _ & H).
  - left.
  - reflexivity.
  - right. reflexivity.
  - exact H.
Defined.

(** ** Steps outside every window *)

(** X16.  In a step taken at a time that lies in no attack's window,
    [inject_attacks] does not raise; and if the step sends its frame, the
    observed signals of the frame equal the real ones, the control output is
    the one the controller computes from the real signals, and no random
    number was drawn. *)
Theorem step_outside_every_window (State Control CtrlState : Type)
    (normal : nat -> Q -> Q) (utcnow : nat -> Z)
    (signals_of : State -> option (gmap string Q))
    (controller_compute :
       CtrlState -> gmap string Q -> Q -> option (Control * CtrlState))
    (solver_step : State -> gmap string Q -> Control -> Q -> Q -> option State)
    (get_active_attacks : list Attack -> Z -> list Attack)
    (env : Env) (m : Machine State CtrlState) (dt : Q) :
  (forall a, a ∈ m_service m -> in_window (sim_t (m_sim m)) a = false) ->
  (forall m' e pe,
     step State Control CtrlState normal utcnow signals_of controller_compute
       solver_step get_active_attacks env m dt = (m', inl e) ->
     e <> InjectionError pe) /\
  (forall m' tm,
     step State Control CtrlState normal utcnow signals_of controller_compute
       solver_step get_active_attacks env m dt = (m', inr tm) ->
     tm_observed tm = tm_real tm /\
     m_rng m' = m_rng m /\
     controller_compute (sim_ctrl (m_sim m)) (tm_real tm) dt
     = Some (tm_control tm, sim_ctrl (m_sim m'))).
Proof.
  intros Hidle. split.
  - intros m' e pe. unfold step, _compute_real_signals.
    destruct (signals_of (sim_state (m_sim m))) as [real|];
      [|intros [= _ <-]; discriminate].
    assert (Hi := inject_loop_idle normal (m_service m) (sim_t (m_sim m)) real
                    real (m_rng m) Hidle).
    unfold inject_attacks.
    destruct (inject_loop normal (sim_t (m_sim m)) real (m_service m) real
                (m_rng m)) as [reg' res].
    simpl in Hi. subst res.
    destruct (_compute_control _ _ _ _ _ _) as [[u self1]|];
      [|intros [= _ <-]; discriminate].
    destruct (_integrate _ _ _ _ _ _ _) as [self2|];
      [|intros [= _ <-]; discriminate].
    destruct (negb (db_up env)); [intros [= _ <-]; discriminate|].
    destruct (_update_attack_states utcnow reg' (m_rows m) (m_tick m)).
    destruct (negb (ws_open env)); [intros [= _ <-]; discriminate|discriminate].
  - intros m' tm H.
    destruct (step_sent _ _ _ _ _ _ _ _ _ _ _ _ _ _ H)
      as (_ & Hi & Hc & _).
    assert (Hidle' := inject_loop_idle normal (m_service m) (sim_t (m_sim m))
                        (tm_real tm) (tm_real tm) (m_rng m) Hidle).
    unfold inject_attacks in Hi. rewrite Hi in Hidle'. simpl in Hidle'.
    injection Hidle' as Hobs Hrng.
    split; [exact Hobs|]. split; [exact Hrng|].
    rewrite <- Hobs. exact Hc.
Qed.

Lemma step_outside_every_window_witness :
  match step Q Q unit Samples.quiet Samples.clock Samples.tank_signals
          Samples.on_off Samples.tank_euler Samples.listed Samples.env_up
          (Samples.tank_machine [Samples.fdi; MoreSamples.replay_empty]) 0.1 with
  | (m', inr tm) => tm_observed tm = tm_real tm /\ m_rng m' = 0%nat
  | (_, inl _) => False
  end.
Proof.
  destruct (step Q Q unit Samples.quiet Samples.clock Samples.tank_signals
              Samples.on_off Samples.tank_euler Samples.listed Samples.env_up
              (Samples.tank_machine [Samples.fdi; MoreSamples.replay_empty]) 0.1)
    as [m' [e|tm]] eqn:H.
  - assert (Hs : match snd (step Q Q unit Samples.quiet Samples.clock
                              Samples.tank_signals Samples.on_off
                              Samples.tank_euler Samples.listed Samples.env_up
                              (Samples.tank_machine
                                 [Samples.fdi; MoreSamples.replay_empty]) 0.1) with
                 | inl _ => false | inr _ => true end = true)
      by (vm_compute; reflexivity).
    rewrite H in Hs. discriminate Hs.
  - destruct (step_outside_every_window Q Q unit Samples.quiet Samples.clock
                Samples.tank_signals Samples.on_off Samples.tank_euler
                Samples.listed Samples.env_up
                (Samples.tank_machine [Samples.fdi; MoreSamples.replay_empty]) 0.1)
      as [_ Hsent].
    + intros a Ha. apply list_elem_of_In in Ha. simpl in Ha.
      destruct Ha as [<-|[<-|[]]]; reflexivity.
    + destruct (Hsent m' tm H) as (Hobs & Hrng & _). auto.
Defined.

(** ** More on the RK4 step *)

(** X20.  On the linear equation [dy/dt = lam * y], one RK4 step multiplies
    the state by the Taylor polynomial of degree four of [exp] at
    [z = lam * dt]: [1 + z + z^2/2 + z^3/6 + z^4/24]. *)
Theorem rk4_step_linear (lam y t dt : Q) :
  let z := lam * dt in
  rk4_step (fun _ y => lam * y) y t dt
  == y * (1 + z + z * z / 2 + z * z * z / 6 + z * z * z * z / 24).
Proof. cbv zeta. unfold rk4_step. field. Qed.

(** X21.  When the derivative does not depend on the state, one RK4 step is
    Simpson's rule on [t, t + dt]:
    [y + dt/6 * (g(t) + 4 g(t + dt/2) + g(t + dt))]. *)
Theorem rk4_step_simpson (g : Q -> Q) (y t dt : Q) :
  rk4_step (fun t _ => g t) y t dt
  == y + (dt / 6) * (g t + 4 * g (t + dt / 2) + g (t + dt)).
Proof. unfold rk4_step. field. Qed.

(** X22.  One RK4 step integrates a cubic polynomial in [t] exactly: for
    [dy/dt = a + b t + c t^2 + e t^3] the step adds [G(t + dt) - G(t)], with
    [G] the antiderivative [a t + b t^2/2 + c t^3/3 + e t^4/4]. *)
Theorem rk4_step_exact_on_cubics (a b c e y t dt : Q) :
  let g := fun s : Q => a + b * s + c * (s * s) + e * (s * s * s) in
  let G := fun s : Q =>
             a * s + b * (s * s) / 2 + c * (s * s * s) / 3
             + e * (s * s * s * s) / 4 in
  rk4_step (fun s _ => g s) y t dt == y + (G (t + dt) - G t).
Proof. cbv zeta. unfold rk4_step. field. Qed.
